(** * ForgeRockEmbeddedLogin: the callback protocol of the login helper

    A shallow embedding of the library object [embeddedLogin] (the current
    implementation with DOM rendering, handlers and [postRenderHandler]) and
    the properties of its classification, submission and rendering steps.

    The server response is parsed JSON, so the program works on untyped
    JavaScript values: property reads on [undefined] and [null] raise a
    [TypeError], reads on other primitives give [undefined]. The embedding
    keeps that behaviour; nothing is assumed about the shape of a response
    unless a theorem says so. *)

From Stdlib Require Import ZArith Ascii String DecimalString DecimalNat.
From stdpp Require Import base list strings.

Local Open Scope string_scope.
Local Open Scope Z_scope.
Local Open Scope nat_scope.

Set Warnings "-register-all".

(** ** JavaScript values *)

(** JSON data plus [undefined]. Numbers of the protocol are integers (status
    codes, indices, milliseconds); they are kept as [Z], and [VNum n] is the
    number the engine reads from the numeral of [n]: [n] itself up to the
    magnitude [2^53], the nearest double above. Numbers with a fraction are
    outside the embedding. An object is the list of its own properties in
    insertion order; the first binding of a key is the property. *)
Inductive value : Type :=
| VUndefined
| VNull
| VBool (b : bool)
| VNum (n : Z)
| VStr (s : string)
| VArr (items : list value)
| VObj (props : list (string * value)).

(** The result of running a piece of the program: a completion with a
    result, or the [TypeError] the engine throws. *)
Inductive outcome (A : Type) : Type :=
| Ok (a : A)
| TypeError.
Arguments Ok {A} a.
Arguments TypeError {A}.

#[global] Instance outcome_ret : MRet outcome := @Ok.
#[global] Instance outcome_bind : MBind outcome := fun A B f m =>
  match m with
  | Ok a => f a
  | TypeError => TypeError
  end.

Definition is_ok {A} (m : outcome A) : bool :=
  match m with Ok _ => true | TypeError => false end.

(** The quotation mark, for the markup templates. *)
Definition dq : string := String (Ascii false true false false false true false false) EmptyString.

(** Decimal numerals: what [${index}] prints for an array index. *)
Definition dec (n : nat) : string := NilEmpty.string_of_uint (Nat.to_uint n).

Definition string_of_Z (n : Z) : string := NilZero.string_of_int (Z.to_int n).

(** A run of [k] zeros. *)
Fixpoint zeros (k : nat) : string :=
  match k with
  | 0 => EmptyString
  | S k => String "0"%char (zeros k)
  end.

(** The double nearest to an integer above [2^53], as the significand [m]
    and the exponent [e] of [m * 2^e] with [2^52 <= m < 2^53]; of two
    doubles equally near, the one with the even significand. *)
Definition nearest_double (n : Z) : Z * Z :=
  let e := (Z.log2 n - 52)%Z in
  let m := Z.shiftr n e in
  let rest := (n - Z.shiftl m e)%Z in
  let half := Z.shiftl 1 (e - 1) in
  let m := if (half <? rest)%Z || ((rest =? half)%Z && Z.odd m) then (m + 1)%Z else m in
  if (m =? 2 ^ 53)%Z then (2 ^ 52, e + 1)%Z else (m, e).

(** The multiple [t * 10^p] of [10^p] that reads back as the double
    [m * 2^e], if there is one: the nearest to the double, and of two
    equally near the even one. A numeral reads back as the double when it
    lies between the midpoints to the neighbouring doubles, the midpoints
    included when [m] is even. Everything is scaled by four, so that the
    midpoint below a power of two is an integer. *)
Definition shortest_at (m e : Z) (p : nat) : option Z :=
  let unit := (4 * 10 ^ Z.of_nat p)%Z in
  let x := (4 * m * 2 ^ e)%Z in
  let above := (2 ^ (e + 1))%Z in
  let below := (if (m =? 2 ^ 52)%Z then 2 ^ e else 2 ^ (e + 1))%Z in
  let inside (t : Z) :=
    if Z.even m then ((x - below <=? t * unit) && (t * unit <=? x + above))%Z
    else ((x - below <? t * unit) && (t * unit <? x + above))%Z in
  let t := (x / unit)%Z in
  match inside t, inside (t + 1)%Z with
  | true, true =>
      let under := (x - t * unit)%Z in
      let over := ((t + 1) * unit - x)%Z in
      Some (if (under <? over)%Z then t
            else if (over <? under)%Z then (t + 1)%Z
            else if Z.even t then t else (t + 1)%Z)
  | true, false => Some t
  | false, true => Some (t + 1)%Z
  | false, false => None
  end.

(** The shortest numeral that reads back as the double: the greatest power
    of ten with such a multiple, from [p] down. *)
Fixpoint shortest (m e : Z) (p : nat) : Z * nat :=
  match shortest_at m e p with
  | Some t => (t, p)
  | None =>
      match p with
      | 0 => ((m * 2 ^ e)%Z, 0)
      | S p' => shortest m e p'
      end
  end.

(** [Number::toString] of a non-negative integer: up to [2^53] the integer
    is a double and prints in full. Above, the number is the nearest
    double; it prints as the shortest numeral that reads back as it,
    followed by zeros up to 21 digits, and from [10^21] on in exponent
    form. From [2^1024] on (rounded) the number is [Infinity]. *)
Definition number_text (n : Z) : string :=
  if (n <=? 2 ^ 53)%Z then string_of_Z n
  else
    let '(m, e) := nearest_double n in
    if (972 <=? e)%Z then "Infinity"
    else
      let '(t, p) := shortest m e (Z.to_nat (Z.log2 n / 3) + 1) in
      let digits := string_of_Z t in
      let n_digits := String.length digits + p in
      if n_digits <=? 21 then digits +:+ zeros p
      else
        match digits with
        | String c EmptyString => String c EmptyString +:+ "e+" +:+ dec (n_digits - 1)
        | String c rest => String c ("." +:+ rest) +:+ "e+" +:+ dec (n_digits - 1)
        | EmptyString => EmptyString
        end.

Definition print_number (n : Z) : string :=
  if (n <? 0)%Z then "-" +:+ number_text (- n) else number_text n.

(** [ToString], as applied by template literals and DOM string setters.
    An array prints its elements separated by commas, with [null] and
    [undefined] elements printed as nothing. *)
Fixpoint to_string (v : value) : string :=
  match v with
  | VUndefined => "undefined"
  | VNull => "null"
  | VBool true => "true"
  | VBool false => "false"
  | VNum n => print_number n
  | VStr s => s
  | VArr items =>
      String.concat ","
        (map (fun x => match x with
                       | VUndefined | VNull => EmptyString
                       | _ => to_string x
                       end) items)
  | VObj _ => "[object Object]"
  end.

(** [ToBoolean]. *)
Definition truthy (v : value) : bool :=
  match v with
  | VUndefined | VNull => false
  | VBool b => b
  | VNum n => negb (n =? 0)%Z
  | VStr EmptyString => false
  | VStr _ => true
  | VArr _ | VObj _ => true
  end.

(** [typeof v === "undefined"]. *)
Definition is_undefined (v : value) : bool :=
  match v with VUndefined => true | _ => false end.

(** [v === s] and [v === n] against a string and a number: strict equality
    never converts. *)
Definition strict_eq_str (v : value) (s : string) : bool :=
  match v with VStr s' => bool_decide (s' = s) | _ => false end.

Definition strict_eq_num (v : value) (n : Z) : bool :=
  match v with VNum n' => (n' =? n)%Z | _ => false end.

Fixpoint lookup_prop (p : string) (props : list (string * value)) : option value :=
  match props with
  | [] => None
  | (k, x) :: rest => if bool_decide (k = p) then Some x else lookup_prop p rest
  end.

(** [o.p] for the data property names the program reads ([tokenId],
    [authId], [code], [callbacks], [type], [input], [output], [name],
    [value], [length], [header], [stage], [template]). Of these only
    [length] exists on arrays and strings. *)
Definition get (o : value) (p : string) : outcome value :=
  match o with
  | VUndefined | VNull => TypeError
  | VObj props => Ok (default VUndefined (lookup_prop p props))
  | VArr items =>
      Ok (if bool_decide (p = "length") then VNum (Z.of_nat (length items)) else VUndefined)
  | VStr s =>
      Ok (if bool_decide (p = "length") then VNum (Z.of_nat (String.length s)) else VUndefined)
  | VBool _ | VNum _ => Ok VUndefined
  end.

(** [o[i]] for a number [i]. *)
Definition get_index (o : value) (i : nat) : outcome value :=
  match o with
  | VUndefined | VNull => TypeError
  | VArr items => Ok (default VUndefined (items !! i))
  | VObj props => Ok (default VUndefined (lookup_prop (dec i) props))
  | VStr s =>
      Ok (match String.get i s with
          | Some c => VStr (String c EmptyString)
          | None => VUndefined
          end)
  | VBool _ | VNum _ => Ok VUndefined
  end.

Fixpoint assign_prop (p : string) (x : value) (props : list (string * value))
  : list (string * value) :=
  match props with
  | [] => [(p, x)]
  | (k, y) :: rest =>
      if bool_decide (k = p) then (k, x) :: rest else (k, y) :: assign_prop p x rest
  end.

(** [o.value = x] in strict mode: a [TypeError] on [undefined], [null] and
    on primitives. On an array the assignment creates a property that is no
    element; it is not part of the array's JSON content and nothing reads
    it before the exchange is replaced, so the array is left as it is. *)
Definition set_value (o : value) (x : value) : outcome value :=
  match o with
  | VObj props => Ok (VObj (assign_prop "value" x props))
  | VArr items => Ok (VArr items)
  | VUndefined | VNull | VBool _ | VNum _ | VStr _ => TypeError
  end.

(** The program mutates a nested object in place. In the embedding the
    mutated child is put back at the place it was read from. *)
Definition put (o : value) (p : string) (child : value) : value :=
  match o with
  | VObj props => VObj (assign_prop p child props)
  | _ => o
  end.

Definition put_index (o : value) (i : nat) (child : value) : value :=
  match o with
  | VArr items => VArr (<[i := child]> items)
  | VObj props => VObj (assign_prop (dec i) child props)
  | _ => o
  end.

(** ** The module's helper *)

(** [findName(array, name)]: a [reduce] from [false] that keeps the first
    item whose [name] is [name]; once an item is found the later ones are
    not looked at. Anything that is no array has no [reduce]. *)
Definition findName_step (name : string) (found : outcome value) (item : value)
  : outcome value :=
  f ← found;
  if truthy f then Ok f
  else
    n ← get item "name";
    Ok (if strict_eq_str n name then item else VBool false).

Definition findName (array : value) (name : string) : outcome value :=
  match array with
  | VArr items => foldl (findName_step name) (Ok (VBool false)) items
  | _ => TypeError
  end.

(** ** Rendered content and effects *)

(** A DOM node built by a render method. [FirstElementOf html] is the
    element obtained by [el.innerHTML = html; el.firstElementChild]; the
    markup is kept as the program wrote it. *)
Inductive node : Type :=
| FirstElementOf (html : string)
| ScriptElement (source : string)
| ReCaptchaContainer (siteKey : string) (index : nat)
| Br.

(** What the promise of [renderCallback] resolves with: a node, an array of
    nodes, or [undefined] (the redirect case returns nothing). *)
Inductive rendered : Type :=
| RNode (n : node)
| RNodes (ns : list node)
| RNothing.

(** What the program does to its environment. The function given to
    [setTimeout] is always the same one; see [timer_fires]. *)
Inductive effect : Type :=
| SetTimeout (delay : value)
| SubmitForm (action method : string) (fields : list (string * string))
| CallSuccessHandler
| CallFailureHandler
| CallPostRenderHandler (header stage template : value)
| Fetch (body : value)
| BindForm (children : list node).

(** A computation with effects: its outcome and the effects it had, in
    order. A [TypeError] keeps the effects that came before it. *)
Record js (A : Type) : Type := Js { result : outcome A; effects : list effect }.
Arguments Js {A} result effects.
Arguments result {A} _.
Arguments effects {A} _.

#[global] Instance js_ret : MRet js := fun A a => Js (Ok a) [].
#[global] Instance js_bind : MBind js := fun A B f m =>
  match result m with
  | Ok a => Js (result (f a)) (effects m ++ effects (f a))%list
  | TypeError => Js TypeError (effects m)
  end.

Definition pure {A} (m : outcome A) : js A := Js m [].
Definition emit (e : effect) : js unit := Js (Ok tt) [e].

(** [array.map((x, i) => f(x, i))] with a callback that may throw, from
    index [i] on. *)
Fixpoint map_from {A B} (f : A → nat → outcome B) (l : list A) (i : nat)
  : outcome (list B) :=
  match l with
  | [] => Ok []
  | x :: rest => y ← f x i; ys ← map_from f rest (S i); Ok (y :: ys)
  end.

Fixpoint map_js_from {A B} (f : A → nat → js B) (l : list A) (i : nat)
  : js (list B) :=
  match l with
  | [] => mret []
  | x :: rest => y ← f x i; ys ← map_js_from f rest (S i); mret (y :: ys)
  end.

(** ** The render methods *)

(** One choice handed to [renderChoiceCallback]. *)
Record choice : Type := Choice { active : bool; key : nat; choice_value : value }.

(** What [messageTypeMap[k]] can be: the literal is an ordinary object, so
    besides its own three members (and [undefined] for a key it does not
    have) a lookup finds the members it inherits from [Object.prototype]. *)
Inductive looked_up : Type :=
| Own (v : value)
| Inherited (member : string).

(** The names [Object.prototype] defines. *)
Definition object_prototype_members : list string :=
  ["constructor"; "__defineGetter__"; "__defineSetter__"; "hasOwnProperty";
   "__lookupGetter__"; "__lookupSetter__"; "isPrototypeOf"; "propertyIsEnumerable";
   "toString"; "valueOf"; "__proto__"; "toLocaleString"].

(** [ToString] of a member of [Object.prototype]. [__proto__] reads as the
    prototype object itself; [constructor] is the function [Object]; every
    other member is a built-in function of its own name. A built-in
    function prints as V8 prints it; other engines differ in the white
    space of this text. *)
Definition inherited_text (member : string) : string :=
  if bool_decide (member = "__proto__") then "[object Object]"
  else "function "
       +:+ (if bool_decide (member = "constructor") then "Object" else member)
       +:+ "() { [native code] }".

(** [ToString] of the result of a lookup. *)
Definition class_text (c : looked_up) : string :=
  match c with
  | Own v => to_string v
  | Inherited member => inherited_text member
  end.

(** The methods of the object that [renderCallback] and [renderAllCallbacks]
    call through [this]. An embedder may replace any of them on a live
    instance, so the dispatching code is written against this interface.
    The interface is that of the library's own methods: a method builds
    detached nodes from its arguments, or throws; it sets no timer and sends
    nothing. A replacement with effects of its own is outside it, so a
    statement over every instance of the class speaks of the replacements
    that only build nodes. *)
Class Methods : Type := {
  renderNameCallback : value → nat → string → outcome rendered;
  renderPasswordCallback : value → nat → string → outcome rendered;
  renderTextInputCallback : value → nat → string → outcome rendered;
  renderTextOutputScript : nat → value → outcome rendered;
  renderTextOutputMessage : nat → value → looked_up → outcome rendered;
  renderConfirmationCallbackOption : value → nat → nat → bool → outcome node;
  renderChoiceCallback : value → nat → string → list choice → outcome rendered;
  renderHiddenValueCallback : value → nat → outcome rendered;
  renderPollingWaitCallback : value → nat → value → outcome rendered;
  renderReCaptchaCallback : value → nat → string → outcome rendered;
  getLoginButtonText : value
}.

Definition nl : string := String (ascii_of_nat 10) EmptyString.
Definition indent : string := "            ".

(** [name="text"], an attribute as the templates write it. *)
Definition attr (name text : string) : string := name +:+ "=" +:+ dq +:+ text +:+ dq.

(** The string a DOM setter marked [LegacyNullToEmptyString] stores
    ([innerHTML], [input.value]). *)
Definition dom_string (v : value) : string :=
  match v with VNull => EmptyString | _ => to_string v end.

(** The methods as the library defines them on its prototype. *)
Module prototype.

Definition renderNameCallback (callback : value) (index : nat) (prompt : string)
  : outcome rendered :=
  input ← get callback "input";
  slot ← get_index input 0;
  v ← get slot "value";
  Ok (RNode (FirstElementOf
    ("<input " +:+ attr "type" "text" +:+ " " +:+ attr "name" ("callback_" +:+ dec index)
     +:+ " " +:+ attr "value" (to_string v) +:+ " " +:+ attr "placeholder" prompt +:+ ">"))).

Definition renderPasswordCallback (callback : value) (index : nat) (prompt : string)
  : outcome rendered :=
  input ← get callback "input";
  slot ← get_index input 0;
  v ← get slot "value";
  Ok (RNode (FirstElementOf
    ("<input " +:+ attr "type" "password" +:+ " " +:+ attr "name" ("callback_" +:+ dec index)
     +:+ " " +:+ attr "value" (to_string v) +:+ " " +:+ attr "placeholder" prompt +:+ ">"))).

Definition renderTextInputCallback (callback : value) (index : nat) (prompt : string)
  : outcome rendered :=
  input ← get callback "input";
  slot ← get_index input 0;
  v ← get slot "value";
  Ok (RNode (FirstElementOf
    ("<textarea " +:+ attr "name" ("callback_" +:+ dec index) +:+ ">"
     +:+ to_string v +:+ "</textarea>"))).

Definition renderTextOutputScript (index : nat) (messageValue : value) : outcome rendered :=
  Ok (RNode (ScriptElement (dom_string messageValue))).

Definition renderTextOutputMessage (index : nat) (messageValue : value) (typeValue : looked_up)
  : outcome rendered :=
  Ok (RNode (FirstElementOf
    ("<div " +:+ attr "id" ("callback_" +:+ dec index) +:+ " "
     +:+ attr "class" (class_text typeValue) +:+ ">" +:+ to_string messageValue +:+ "</div>"))).

(** [isDefault] is received and not used. *)
Definition renderConfirmationCallbackOption
  (option : value) (index key : nat) (isDefault : bool) : outcome node :=
  Ok (FirstElementOf
    ("<input " +:+ attr "name" ("callback_" +:+ dec index) +:+ " " +:+ attr "type" "submit"
     +:+ " " +:+ attr "index" (dec key) +:+ " " +:+ attr "value" (to_string option) +:+ ">")).

Definition choice_markup (c : choice) : string :=
  "<option " +:+ attr "value" (dec (key c)) +:+ " "
  +:+ (if active c then "selected" else EmptyString) +:+ ">"
  +:+ to_string (choice_value c) +:+ "</option>".

(** The array of option markups is interpolated as a whole, so its
    elements come out separated by commas. *)
Definition renderChoiceCallback
  (callback : value) (index : nat) (prompt : string) (choices : list choice)
  : outcome rendered :=
  Ok (RNode (FirstElementOf
    ("<div><label " +:+ attr "for" ("callback_" +:+ dec index) +:+ " "
     +:+ attr "id" ("label_callback_" +:+ dec index) +:+ ">" +:+ prompt +:+ "</label>"
     +:+ nl +:+ indent
     +:+ "<select " +:+ attr "name" ("callback_" +:+ dec index) +:+ " "
     +:+ attr "id" ("callback_" +:+ dec index) +:+ ">"
     +:+ nl +:+ indent +:+ String.concat "," (map choice_markup choices)
     +:+ nl +:+ indent +:+ "</select></div>"))).

Definition hidden_field (ident : string) (index : nat) : string :=
  "<input " +:+ attr "type" "hidden" +:+ " " +:+ attr "id" ident +:+ " "
  +:+ attr "aria-hidden" "true" +:+ " " +:+ attr "name" ("callback_" +:+ dec index)
  +:+ " " +:+ attr "value" EmptyString +:+ " />".

Definition renderHiddenValueCallback (callback : value) (index : nat) : outcome rendered :=
  input ← get callback "input";
  v ← get input "value";
  Ok (RNode (FirstElementOf (hidden_field (to_string v) index))).

(** [message] is received and not used: the body is that of
    [renderHiddenValueCallback]. *)
Definition renderPollingWaitCallback (callback : value) (index : nat) (message : value)
  : outcome rendered :=
  input ← get callback "input";
  v ← get input "value";
  Ok (RNode (FirstElementOf (hidden_field (to_string v) index))).

(** The container holds the API import, the script and style of the
    widget, the [g-recaptcha] element keyed by [siteKey], and the hidden
    input [callback_<index>]; all of it is determined by the two values
    kept here. *)
Definition renderReCaptchaCallback (option : value) (index : nat) (key : string)
  : outcome rendered :=
  output ← get option "output";
  first ← get_index output 0;
  reCaptchaSiteKey ← get first "value";
  Ok (RNode (ReCaptchaContainer (to_string reCaptchaSiteKey) index)).

Definition getLoginButtonText : value := VStr "Login".

End prototype.

#[global] Instance library_methods : Methods := {|
  renderNameCallback := prototype.renderNameCallback;
  renderPasswordCallback := prototype.renderPasswordCallback;
  renderTextInputCallback := prototype.renderTextInputCallback;
  renderTextOutputScript := prototype.renderTextOutputScript;
  renderTextOutputMessage := prototype.renderTextOutputMessage;
  renderConfirmationCallbackOption := prototype.renderConfirmationCallbackOption;
  renderChoiceCallback := prototype.renderChoiceCallback;
  renderHiddenValueCallback := prototype.renderHiddenValueCallback;
  renderPollingWaitCallback := prototype.renderPollingWaitCallback;
  renderReCaptchaCallback := prototype.renderReCaptchaCallback;
  getLoginButtonText := prototype.getLoginButtonText
|}.

(** [renderUnknownCallback] delegates to the instance's [renderNameCallback]. *)
Definition renderUnknownCallback `{Methods} (callback : value) (index : nat) (prompt : string)
  : outcome rendered :=
  renderNameCallback callback index prompt.

(** ** renderCallback *)

(** [s.replace] of the pattern [/:$/] by the empty string: one colon at the
    very end is dropped. *)
Fixpoint strip_colon (s : string) : string :=
  match s with
  | EmptyString => EmptyString
  | String c EmptyString => if bool_decide (c = ":"%char) then EmptyString else s
  | String c rest => String c (strip_colon rest)
  end.

(** The prompt of a callback: the [prompt] output without its trailing
    colon, or the empty string. A value with a truthy [length] that is no
    string has no [replace]. *)
Definition prompt_of (output : value) : outcome string :=
  promptOutput ← findName output "prompt";
  if truthy promptOutput then
    v ← get promptOutput "value";
    if truthy v then
      len ← get v "length";
      if truthy len then
        match v with
        | VStr s => Ok (strip_colon s)
        | _ => TypeError
        end
      else Ok EmptyString
    else Ok EmptyString
  else Ok EmptyString.

(** [messageTypeMap[k]] for the literal [{0: "INFORMATION", 1: "WARNING",
    2: "ERROR"}]; the key is converted to a string. A key the literal does
    not have is looked up in [Object.prototype]. *)
Definition messageTypeMap (k : value) : looked_up :=
  let name := to_string k in
  if bool_decide (name = "0") then Own (VStr "INFORMATION")
  else if bool_decide (name = "1") then Own (VStr "WARNING")
  else if bool_decide (name = "2") then Own (VStr "ERROR")
  else if bool_decide (name ∈ object_prototype_members) then Inherited name
  else Own VUndefined.

(** [defaultOption && defaultOption.value === key]. [defaultOption] is
    [false] or an object, so the result is a boolean. *)
Definition is_default (defaultOption : value) (key : nat) : outcome bool :=
  if truthy defaultOption then
    d ← get defaultOption "value";
    Ok (strict_eq_num d (Z.of_nat key))
  else Ok false.

Section Dispatch.
Context `{M : Methods}.

(** The cases of the switch of [renderCallback] that do more than call a
    render method, one definition per case. *)

(** [case "TextOutputCallback"]. *)
Definition renderTextOutput (output : value) (index : nat) : outcome rendered :=
  type ← findName output "messageType";
  message ← findName output "message";
  t ← get type "value";
  if strict_eq_str t "4" then
    m ← get message "value";
    renderTextOutputScript index m
  else
    m ← get message "value";
    t' ← get type "value";
    renderTextOutputMessage index m (messageTypeMap t').

(** [case "ConfirmationCallback"]. A value of [options] that is no array
    has no [map]. *)
Definition renderConfirmation (output : value) (index : nat) : outcome rendered :=
  options ← findName output "options";
  if truthy options then
    v ← get options "value";
    match v with
    | VUndefined => Ok (RNodes [])
    | VArr opts =>
        defaultOption ←
          (if 1 <? length opts then findName output "defaultOption"
           else Ok (VObj [("value", VNum 0)]));
        nodes ← map_from
          (fun option key =>
             isDefault ← is_default defaultOption key;
             renderConfirmationCallbackOption option index key isDefault)
          opts 0;
        Ok (RNodes nodes)
    | _ => TypeError
    end
  else Ok (RNodes []).

(** [case "ChoiceCallback"]. The current input is read once per choice. *)
Definition renderChoice (callback output : value) (index : nat) (prompt : string)
  : outcome rendered :=
  choiceOutput ← findName output "choices";
  if truthy choiceOutput then
    v ← get choiceOutput "value";
    match v with
    | VUndefined => Ok (RNodes [])
    | VArr opts =>
        choices ← map_from
          (fun option key =>
             input ← get callback "input";
             current ← get input "value";
             Ok (Choice (strict_eq_num current (Z.of_nat key)) key option))
          opts 0;
        renderChoiceCallback callback index prompt choices
    | _ => TypeError
    end
  else Ok (RNodes []).

(** [case "RedirectCallback"]: a form is built, appended to the body and
    submitted; nothing is returned. *)
Definition renderRedirect (output : value) : js rendered :=
  redirectUrl ← pure (findName output "redirectUrl");
  redirectMethod ← pure (findName output "redirectMethod");
  redirectData ← pure (findName output "redirectData");
  action ← pure (get redirectUrl "value");
  method ← pure (get redirectMethod "value");
  fields ← pure
    (if truthy redirectData then
       data ← get redirectData "value";
       if truthy data then
         match data with
         | VArr items => Ok (imap (fun k v => (dec k, dom_string v)) items)
         | _ => TypeError
         end
       else Ok []
     else Ok []);
  _ ← emit (SubmitForm (to_string action) (to_string method) fields);
  mret RNothing.

(** [case "PollingWaitCallback"]. *)
Definition renderPollingWait (callback output : value) (index : nat) : js rendered :=
  waitTime ← pure (findName output "waitTime");
  pollingWaitTimeoutMs ← pure (get waitTime "value");
  _ ← emit (SetTimeout pollingWaitTimeoutMs);
  message ← pure (findName output "message");
  m ← pure (get message "value");
  pure (renderPollingWaitCallback callback index m).

Definition renderCallback (callback : value) (index : nat) : js rendered :=
  output ← pure (get callback "output");
  prompt ← pure (prompt_of output);
  type ← pure (get callback "type");
  if strict_eq_str type "NameCallback" then
    pure (renderNameCallback callback index prompt)
  else if strict_eq_str type "PasswordCallback" then
    pure (renderPasswordCallback callback index prompt)
  else if strict_eq_str type "TextInputCallback" then
    pure (renderTextInputCallback callback index prompt)
  else if strict_eq_str type "TextOutputCallback" then
    pure (renderTextOutput output index)
  else if strict_eq_str type "ConfirmationCallback" then
    pure (renderConfirmation output index)
  else if strict_eq_str type "ChoiceCallback" then
    pure (renderChoice callback output index prompt)
  else if strict_eq_str type "HiddenValueCallback" then
    pure (renderHiddenValueCallback callback index)
  else if strict_eq_str type "RedirectCallback" then
    renderRedirect output
  else if strict_eq_str type "PollingWaitCallback" then
    renderPollingWait callback output index
  else if strict_eq_str type "ReCaptchaCallback" then
    pure (renderReCaptchaCallback callback index prompt)
  else
    pure (renderUnknownCallback callback index prompt).

End Dispatch.

(** ** The session driver *)

(** The mount point the embedder gave: none, an element that is in a
    document (it has a parent node), or an element that has no parent. *)
Inductive mount_point : Type :=
| NoElement
| Attached
| Detached.

(** The instance: the exchange last stored, which optional handlers and
    mount point the embedder gave, and the flag the polling timer sets. *)
Record embeddedLogin : Type := EmbeddedLogin {
  currentCallbacks : value;
  successHandler : bool;
  failureHandler : bool;
  postRenderHandler : bool;
  loginElement : mount_point;
  pollingInProgress : value
}.

Definition with_currentCallbacks (this : embeddedLogin) (cur : value) : embeddedLogin :=
  EmbeddedLogin cur (successHandler this) (failureHandler this) (postRenderHandler this)
    (loginElement this) (pollingInProgress this).

(** What the function given to [setTimeout] does when the timer fires. *)
Definition timer_fires (this : embeddedLogin) : embeddedLogin :=
  EmbeddedLogin (currentCallbacks this) (successHandler this) (failureHandler this)
    (postRenderHandler this) (loginElement this) (VBool true).

Definition success (this : embeddedLogin) : outcome bool :=
  tokenId ← get (currentCallbacks this) "tokenId";
  Ok (truthy tokenId).

Definition failure (this : embeddedLogin) : outcome bool :=
  authId ← get (currentCallbacks this) "authId";
  if is_undefined authId then
    code ← get (currentCallbacks this) "code";
    Ok (strict_eq_num code 401)
  else Ok false.

(** [joinRenderedCallbacks]: the results are flattened one level, then each
    is appended to a new form, followed by a line break. [appendChild]
    refuses [undefined]. *)
Definition flatten (renderedCallbacks : list rendered) : list (option node) :=
  foldl (fun result item =>
           (result ++ match item with
                      | RNode n => [Some n]
                      | RNodes ns => map Some ns
                      | RNothing => [None]
                      end)%list) [] renderedCallbacks.

Fixpoint append_children (items : list (option node)) : outcome (list node) :=
  match items with
  | [] => Ok []
  | Some n :: rest => children ← append_children rest; Ok (n :: Br :: children)
  | None :: _ => TypeError
  end.

Definition joinRenderedCallbacks (renderedCallbacks : list rendered) : outcome (list node) :=
  append_children (flatten renderedCallbacks).

(** [renderHandler]: with a mount point, an empty clone of it takes its
    place under its parent, the form is appended to the clone and gets
    [handleLoginSubmit] as its submit handler. The clone has the parent the
    mount point had, so the instance keeps an attached mount point. A mount
    point without a parent has [null] as [parentNode], and the call of
    [replaceChild] on it throws before anything is changed. *)
Definition renderHandler (this : embeddedLogin) (loginContent : list node) : js unit :=
  match loginElement this with
  | NoElement => mret tt
  | Attached => emit (BindForm loginContent)
  | Detached => pure TypeError
  end.

(** The membership test of the [reduce] in [renderAllCallbacks]. *)
Definition ends_flow (type : value) : bool :=
  strict_eq_str type "ConfirmationCallback"
  || strict_eq_str type "PollingWaitCallback"
  || strict_eq_str type "RedirectCallback".

Definition has_button_step (result : outcome bool) (callback : value) : outcome bool :=
  r ← result;
  if (r : bool) then Ok true
  else
    type ← get callback "type";
    Ok (ends_flow type).

Section Driver.
Context `{M : Methods}.

Definition loginCallback (count : nat) : value :=
  VObj [("input", VObj [("index", VNum (Z.of_nat count));
                        ("name", VStr "loginButton");
                        ("value", VNum 0)]);
        ("output", VArr [VObj [("name", VStr "options");
                               ("value", VArr [getLoginButtonText])]]);
        ("type", VStr "ConfirmationCallback")].

(** The callbacks [renderAllCallbacks] renders: the stored ones, with the
    login button appended to a copy when none of them ends the flow. *)
Definition callbacks_to_render (items : list value) : outcome (list value) :=
  found ← foldl has_button_step (Ok false) items;
  let needsLoginButton := negb found in
  Ok (if needsLoginButton then (items ++ [loginCallback (length items)])%list else items).

Definition renderAllCallbacks (this : embeddedLogin) : js (list node) :=
  callbacks ← pure (get (currentCallbacks this) "callbacks");
  match callbacks with
  | VArr items =>
      shown ← pure (callbacks_to_render items);
      renderedCallbacks ← map_js_from renderCallback shown 0;
      pure (joinRenderedCallbacks renderedCallbacks)
  | _ => pure TypeError
  end.

(** The last branch of [handleCallbackResponse]: the callbacks are
    rendered and bound, then the embedder is told. *)
Definition continuation (this : embeddedLogin) : js unit :=
  loginContent ← renderAllCallbacks this;
  _ ← renderHandler this loginContent;
  if postRenderHandler this then
    header ← pure (get (currentCallbacks this) "header");
    stage ← pure (get (currentCallbacks this) "stage");
    template ← pure (get (currentCallbacks this) "template");
    emit (CallPostRenderHandler header stage template)
  else mret tt.

Definition handleCallbackResponse (this : embeddedLogin) : js unit :=
  succeeded ← pure (success this);
  if succeeded && successHandler this then emit CallSuccessHandler
  else
    failed ← pure (failure this);
    if failed && failureHandler this then emit CallFailureHandler
    else continuation this.

End Driver.

(** ** The form binder *)

(** [name.match(/^callback_(\d+)$/)] followed by [parseInt(group, 10)]:
    the index a field name addresses, if it has the pattern. Indices beyond
    the precision of a JavaScript number are beyond any array, so the
    exact value is used. *)
Definition digit_value (c : ascii) : option nat :=
  let n := nat_of_ascii c in
  if (48 <=? n) && (n <=? 57) then Some (n - 48) else None.

Fixpoint parse_digits (s : string) (acc : nat) : option nat :=
  match s with
  | EmptyString => Some acc
  | String c rest =>
      match digit_value c with
      | Some d => parse_digits rest (10 * acc + d)
      | None => None
      end
  end.

Fixpoint drop_prefix (prefix s : string) : option string :=
  match prefix, s with
  | EmptyString, _ => Some s
  | String a prefix', String b s' =>
      if bool_decide (a = b) then drop_prefix prefix' s' else None
  | String _ _, EmptyString => None
  end.

Definition match_callback (name : string) : option nat :=
  match drop_prefix "callback_" name with
  | Some (String c rest) => parse_digits (String c rest) 0
  | _ => None
  end.

(** [callback.input[0].value = x]. *)
Definition write_slot (callback x : value) : outcome value :=
  input ← get callback "input";
  slot ← get_index input 0;
  slot' ← set_value slot x;
  Ok (put callback "input" (put_index input 0 slot')).

(** [cur.callbacks[n].input[0].value = x]. *)
Definition write_input (cur : value) (n : nat) (x : value) : outcome value :=
  callbacks ← get cur "callbacks";
  callback ← get_index callbacks n;
  callback' ← write_slot callback x;
  Ok (put cur "callbacks" (put_index callbacks n callback')).

(** [cur.callbacks[n].input[0].value], the read that goes with it. *)
Definition input_value (cur : value) (n : nat) : outcome value :=
  callbacks ← get cur "callbacks";
  callback ← get_index callbacks n;
  input ← get callback "input";
  slot ← get_index input 0;
  get slot "value".

(** The loop of [handleLoginSubmit] over the entries of the form data, in
    order. The exchange is mutated in place, so a [TypeError] leaves it
    with the writes made so far. *)
Fixpoint copy_fields (cur : value) (entries : list (string * string))
  : value * outcome unit :=
  match entries with
  | [] => (cur, Ok tt)
  | entry :: rest =>
      match match_callback entry.1 with
      | Some n =>
          match write_input cur n (VStr entry.2) with
          | Ok cur' => copy_fields cur' rest
          | TypeError => (cur, TypeError)
          end
      | None => copy_fields cur rest
      end
  end.

Section Rounds.
Context `{M : Methods}.

(** [submitCallbacks]: the stored exchange is the request body; the
    parsed response [jsonResp] replaces it and is classified. *)
Definition submitCallbacks (this : embeddedLogin) (jsonResp : value)
  : embeddedLogin * js unit :=
  let this' := with_currentCallbacks this jsonResp in
  (this', _ ← emit (Fetch (currentCallbacks this)); handleCallbackResponse this').

Definition startLogin (this : embeddedLogin) (jsonResp : value) : embeddedLogin * js unit :=
  submitCallbacks (with_currentCallbacks this (VObj [])) jsonResp.

Definition handleLoginSubmit
  (this : embeddedLogin) (entries : list (string * string)) (jsonResp : value)
  : embeddedLogin * js unit :=
  let (cur, copied) := copy_fields (currentCallbacks this) entries in
  match copied with
  | Ok _ => submitCallbacks (with_currentCallbacks this cur) jsonResp
  | TypeError => (with_currentCallbacks this cur, Js TypeError [])
  end.

End Rounds.

(** ** Outputs of a descriptor, as the data model has them *)

(** Whether an item of an output sequence is the entry called [name]. *)
Definition named (name : string) (item : value) : bool :=
  match item with
  | VObj props => strict_eq_str (default VUndefined (lookup_prop "name" props)) name
  | _ => false
  end.

(** The first entry called [name] of an output sequence. *)
Definition entry (name : string) (items : list value) : option value :=
  find (named name) items.

(** The value of the output called [name]; [undefined] without one. *)
Definition output_value (name : string) (items : list value) : value :=
  match entry name items with
  | Some (VObj props) => default VUndefined (lookup_prop "value" props)
  | _ => VUndefined
  end.

(** An output sequence of name/value pairs: every item is an object, and a
    [prompt], where there is one, is a string (or has no value). *)
Definition well_formed_entry (item : value) : bool :=
  match item with
  | VObj props =>
      if named "prompt" item then
        match lookup_prop "value" props with
        | Some (VStr _) | None => true
        | _ => false
        end
      else true
  | _ => false
  end.

Definition entries (items : list value) : Prop :=
  forallb well_formed_entry items = true.

(** The prompt text of a well-formed output sequence. *)
Definition prompt_text (items : list value) : string :=
  match output_value "prompt" items with
  | VStr s => strip_colon s
  | _ => EmptyString
  end.


(** ** Descriptors as the server sends them *)

(** One name/value pair of an [input] or [output] sequence. *)
Definition pair (name : string) (v : value) : value :=
  VObj [("name", VStr name); ("value", v)].

(** A callback descriptor: its type tag, its outputs and its inputs. *)
Definition descriptor (type : string) (output input : list value) : value :=
  VObj [("type", VStr type); ("output", VArr output); ("input", VArr input)].

(** Whether [needle] occurs in [s]. *)
Fixpoint contains (needle s : string) : bool :=
  if String.prefix needle s then true
  else match s with
       | EmptyString => false
       | String _ rest => contains needle rest
       end.

(** The earlier string-rendering variant of the library (the bundled build
    and [index.js]), where it differs from the current methods. *)
Module bundle.

Definition renderPollingWaitCallback (callback : value) (index : nat) (message : value)
  : string :=
  "<h4>" +:+ to_string message +:+ "</h4>".

Definition renderHiddenValueCallback (callback : value) (index : nat) : outcome string :=
  input ← get callback "input";
  v ← get input "value";
  Ok (prototype.hidden_field (to_string v) index).

End bundle.

(** The markup of the static message block. *)
Definition message_block (index : nat) (class text : string) : string :=
  "<div " +:+ attr "id" ("callback_" +:+ dec index) +:+ " " +:+ attr "class" class
  +:+ ">" +:+ text +:+ "</div>".

Definition script_example : value :=
  descriptor "TextOutputCallback"
    [pair "message" (VStr "document.forms[0].submit();"); pair "messageType" (VStr "4")] [].

Definition warning_example : value :=
  descriptor "TextOutputCallback"
    [pair "message" (VStr "Password expires soon"); pair "messageType" (VStr "1")] [].

(** The fields of the redirect form for a [redirectData] value, and whether
    that value can be iterated (an array, or nothing to iterate). *)
Definition redirect_fields (data : value) : list (string * string) :=
  match data with
  | VArr items => imap (fun k v => (dec k, dom_string v)) items
  | _ => []
  end.

Definition redirectable (data : value) : bool :=
  match data with
  | VArr _ => true
  | _ => negb (truthy data)
  end.

Definition hidden_example : value :=
  descriptor "HiddenValueCallback"
    [pair "value" (VStr EmptyString); pair "id" (VStr "jsOutput")]
    [pair "IDToken1" (VStr "abc123")].

(** The same descriptor with its input as one slot instead of a sequence. *)
Definition hidden_single_slot_example : value :=
  VObj [("type", VStr "HiddenValueCallback");
        ("output", VArr [pair "value" (VStr EmptyString); pair "id" (VStr "jsOutput")]);
        ("input", VObj [("name", VStr "IDToken1"); ("value", VStr "abc123")])].

Definition polling_example : value :=
  descriptor "PollingWaitCallback"
    [pair "waitTime" (VStr "8000"); pair "message" (VStr "Waiting for response...")] [].

(** The same descriptor without an [input] property. *)
Definition polling_without_input_example : value :=
  VObj [("type", VStr "PollingWaitCallback");
        ("output", VArr [pair "waitTime" (VStr "8000");
                         pair "message" (VStr "Waiting for response...")])].

Definition choice_example : value :=
  descriptor "ChoiceCallback"
    [pair "prompt" (VStr "Second factor:");
     pair "choices" (VArr [VStr "Email"; VStr "SMS"]);
     pair "defaultChoice" (VNum 1)]
    [pair "IDToken1" (VNum 1)].

Definition empty_text_output_example : value := descriptor "TextOutputCallback" [] [].
Definition empty_redirect_example : value := descriptor "RedirectCallback" [] [].
Definition empty_polling_example : value := descriptor "PollingWaitCallback" [] [].

(** The markup of one submit control of a confirmation. *)
Definition submit_control (index key : nat) (text : string) : string :=
  "<input " +:+ attr "name" ("callback_" +:+ dec index) +:+ " " +:+ attr "type" "submit"
  +:+ " " +:+ attr "index" (dec key) +:+ " " +:+ attr "value" text +:+ ">".

Definition confirmation_example : value :=
  descriptor "ConfirmationCallback"
    [pair "prompt" (VStr EmptyString);
     pair "options" (VArr [VStr "Yes"; VStr "No"; VStr "Cancel"]);
     pair "defaultOption" (VNum 1)]
    [pair "IDToken1" (VNum 0)].

Definition single_option_example : value :=
  descriptor "ConfirmationCallback"
    [pair "options" (VArr [VStr "Continue"]); pair "defaultOption" (VNum 5)]
    [pair "IDToken1" (VNum 0)].

(** Whether a callback's type can be read, and whether it is one of the
    three that end a flow. *)
Definition readable (callback : value) : bool := is_ok (get callback "type").

Definition ends (callback : value) : bool :=
  match get callback "type" with
  | Ok type => ends_flow type
  | TypeError => false
  end.

(** The exchange of the end-to-end scenario: one NameCallback. *)
Definition name_example : value :=
  VObj [("type", VStr "NameCallback");
        ("input", VArr [VObj [("value", VStr EmptyString)]]);
        ("output", VArr [pair "prompt" (VStr "User Name:")])].

Definition name_exchange : value := VObj [("callbacks", VArr [name_example])].

Definition instance_with (cur : value) : embeddedLogin :=
  EmbeddedLogin cur true true false Attached VUndefined.

Definition rejected_exchange : value :=
  VObj [("code", VNum 401); ("reason", VStr "Unauthorized");
        ("message", VStr "Authentication Failed")].

Definition retry_exchange : value :=
  VObj [("authId", VStr "eyJ0eXAi"); ("code", VNum 401); ("callbacks", VArr [name_example])].

Definition token_exchange : value :=
  VObj [("tokenId", VStr "AQIC5w"); ("successUrl", VStr "/console"); ("code", VNum 401)].

(** ** Fields and slots *)

(** The name the render methods give the field of callback [n]. *)
Definition field_name (n : nat) : string := "callback_" +:+ dec n.

(** Whether a form entry has the pattern [callback_<N>]. *)
Definition addressed (entry : string * string) : Prop := is_Some (match_callback entry.1).

(** The value of the last entry that addresses callback [n]. *)
Fixpoint last_field (entries : list (string * string)) (n : nat) : option string :=
  match entries with
  | [] => None
  | entry :: rest =>
      match last_field rest n with
      | Some v => Some v
      | None => if bool_decide (match_callback entry.1 = Some n) then Some entry.2 else None
      end
  end.

(** Callback [n] of the exchange exists and its input is a sequence that
    starts with a name/value object. *)
Definition writable (cur : value) (n : nat) : Prop :=
  ∃ items callback slot more,
    get cur "callbacks" = Ok (VArr items)
    ∧ items !! n = Some callback
    ∧ get callback "input" = Ok (VArr (VObj slot :: more)).

(** [callback'] is [callback] after any number of assignments to
    [callback.input[0].value]. *)
Inductive input_written : value → value → Prop :=
| input_kept callback : input_written callback callback
| input_assigned callback callback' callback'' x :
    input_written callback callback' →
    write_slot callback' x = Ok callback'' →
    input_written callback callback''.

Definition is_request (e : effect) : bool :=
  match e with Fetch _ => true | _ => false end.

(** An exchange of three callbacks, and a submitted form. *)
Definition credentials_exchange : value :=
  VObj [("authId", VStr "eyJ0eXAi");
        ("callbacks",
         VArr [descriptor "TextOutputCallback"
                 [pair "message" (VStr "Sign in"); pair "messageType" (VStr "0")] [];
               descriptor "PasswordCallback"
                 [pair "prompt" (VStr "Password:")] [pair "IDToken2" (VStr EmptyString)];
               descriptor "NameCallback"
                 [pair "prompt" (VStr "User Name:")] [pair "IDToken3" (VStr EmptyString)]])].

Definition submitted_form : list (string * string) :=
  [("callback_1", "secret"); ("remember", "on"); ("callback_2", "alice")].

(** A computation that sends no request. *)
Definition silent {A} (m : js A) : Prop :=
  Forall (λ e, is_request e = false) (effects m).

(** ** Vocabulary of the further properties *)

(** The type tags the switch of [renderCallback] has a case for. *)
Definition known_type (type : value) : bool :=
  existsb (strict_eq_str type)
    ["NameCallback"; "PasswordCallback"; "TextInputCallback"; "TextOutputCallback";
     "ConfirmationCallback"; "ChoiceCallback"; "HiddenValueCallback"; "RedirectCallback";
     "PollingWaitCallback"; "ReCaptchaCallback"].

(** The nodes one rendered result contributes to the form, and a list of
    nodes with a line break after each. *)
Definition rendered_nodes (r : rendered) : list node :=
  match r with
  | RNode n => [n]
  | RNodes ns => ns
  | RNothing => []
  end.

Definition with_breaks (ns : list node) : list node :=
  flat_map (fun n => [n; Br]) ns.

(** The bodies of the requests among some effects, in order. *)
Definition requests (es : list effect) : list value :=
  omap (fun e => match e with Fetch body => Some body | _ => None end) es.

(** The markup of the three text fields. *)
Definition text_field (kind : string) (index : nat) (text prompt : string) : string :=
  "<input " +:+ attr "type" kind +:+ " " +:+ attr "name" (field_name index)
  +:+ " " +:+ attr "value" text +:+ " " +:+ attr "placeholder" prompt +:+ ">".

Definition text_area (index : nat) (text : string) : string :=
  "<textarea " +:+ attr "name" (field_name index) +:+ ">" +:+ text +:+ "</textarea>".

(** A value that is neither [undefined] nor [null]. *)
Definition defined (v : value) : bool :=
  match v with VUndefined | VNull => false | _ => true end.

Definition password_example : value :=
  descriptor "PasswordCallback" [pair "prompt" (VStr "Password:")]
    [pair "IDToken2" (VStr "hunter2")].

Definition device_example : value :=
  descriptor "DeviceProfileCallback" [pair "prompt" (VStr "Device::")]
    [pair "IDToken1" (VStr EmptyString)].

Definition redirect_example : value :=
  descriptor "RedirectCallback"
    [pair "redirectUrl" (VStr "https://idp.example.com/sso");
     pair "redirectMethod" (VStr "POST");
     pair "redirectData" (VObj [("SAMLRequest", VStr "PHNhbWw=")])] [].

Definition redirect_list_example : value :=
  descriptor "RedirectCallback"
    [pair "redirectUrl" (VStr "https://idp.example.com/sso");
     pair "redirectMethod" (VStr "POST");
     pair "redirectData" (VArr [VStr "PHNhbWw="; VNull])] [].

Definition recaptcha_example : value :=
  descriptor "ReCaptchaCallback"
    [pair "reCaptchaSiteKey" (VStr "6LfW"); pair "siteKey" (VStr "other")]
    [pair "IDToken1" (VStr EmptyString)].

Definition bare_confirmation_example : value :=
  descriptor "ConfirmationCallback" [pair "prompt" (VStr "Proceed?")]
    [pair "IDToken1" (VNum 0)].

Definition server_error_exchange : value :=
  VObj [("code", VNum 500); ("reason", VStr "Internal Server Error")].

(** ** The string-rendering variant, [index.js] *)

(** [index.js] renders every callback as markup text; its methods are
    written as they stand there, without the interface of the current
    library. A rendered result is a string, an array of strings (the
    options of a confirmation) or [undefined] (the redirect). The two
    methods that [bundle] already has are taken from it. *)
Module index_js.

(** The prompt is whatever the caller passes; [renderUnknownCallback]
    passes none. *)
Definition renderNameCallback (callback : value) (index : nat) (prompt : value)
  : outcome value :=
  input ← get callback "input";
  slot ← get_index input 0;
  v ← get slot "value";
  Ok (VStr ("<input " +:+ attr "type" "text" +:+ " " +:+ attr "name" ("callback_" +:+ dec index)
            +:+ " " +:+ attr "value" (to_string v) +:+ " "
            +:+ attr "placeholder" (to_string prompt) +:+ ">")).

Definition renderPasswordCallback (callback : value) (index : nat) (prompt : value)
  : outcome value :=
  input ← get callback "input";
  slot ← get_index input 0;
  v ← get slot "value";
  Ok (VStr ("<input " +:+ attr "type" "password" +:+ " "
            +:+ attr "name" ("callback_" +:+ dec index)
            +:+ " " +:+ attr "value" (to_string v) +:+ " "
            +:+ attr "placeholder" (to_string prompt) +:+ ">")).

Definition renderTextInputCallback (callback : value) (index : nat) (prompt : value)
  : outcome value :=
  input ← get callback "input";
  slot ← get_index input 0;
  v ← get slot "value";
  Ok (VStr ("<textarea " +:+ attr "name" ("callback_" +:+ dec index) +:+ ">"
            +:+ to_string v +:+ "</textarea>")).

Definition renderTextOutputScript (index : nat) (messageValue : value) : value :=
  VStr ("<script " +:+ attr "type" "text/javascript" +:+ ">"
        +:+ to_string messageValue +:+ "</script>").

Definition renderTextOutputMessage (index : nat) (messageValue typeValue : value) : value :=
  VStr ("<div " +:+ attr "id" ("callback_" +:+ dec index) +:+ " "
        +:+ attr "class" (to_string typeValue) +:+ ">" +:+ to_string messageValue +:+ "</div>").

Definition renderConfirmationCallbackOption
  (option : value) (index key : nat) (isDefault : bool) : value :=
  VStr ("<input " +:+ attr "name" ("callback_" +:+ dec index) +:+ " " +:+ attr "type" "submit"
        +:+ " " +:+ attr "index" (dec key) +:+ " " +:+ attr "value" (to_string option) +:+ ">").

Definition renderChoiceCallback
  (callback : value) (index : nat) (prompt : string) (choices : list choice) : value :=
  VStr ("<label " +:+ attr "for" ("callback_" +:+ dec index) +:+ " "
        +:+ attr "id" ("label_callback_" +:+ dec index) +:+ ">" +:+ prompt +:+ "</label>"
        +:+ nl +:+ indent
        +:+ "<select " +:+ attr "name" ("callback_" +:+ dec index) +:+ " "
        +:+ attr "id" ("callback_" +:+ dec index) +:+ ">"
        +:+ nl +:+ indent +:+ String.concat "," (map prototype.choice_markup choices)
        +:+ nl +:+ indent +:+ "</select>").

Definition renderUnknownCallback (callback : value) (index : nat) : outcome value :=
  renderNameCallback callback index VUndefined.

(** The cases of the switch, as in the current library but for the class
    of the message block, which is the [messageType] itself. There is no
    case for the ReCaptchaCallback. *)
Definition renderTextOutput (output : value) (index : nat) : outcome value :=
  type ← findName output "messageType";
  message ← findName output "message";
  t ← get type "value";
  if strict_eq_str t "4" then
    m ← get message "value";
    Ok (renderTextOutputScript index m)
  else
    m ← get message "value";
    t' ← get type "value";
    Ok (renderTextOutputMessage index m t').

Definition renderConfirmation (output : value) (index : nat) : outcome value :=
  options ← findName output "options";
  if truthy options then
    v ← get options "value";
    match v with
    | VUndefined => Ok (VArr [])
    | VArr opts =>
        defaultOption ←
          (if 1 <? length opts then findName output "defaultOption"
           else Ok (VObj [("value", VNum 0)]));
        controls ← map_from
          (fun option key =>
             isDefault ← is_default defaultOption key;
             Ok (renderConfirmationCallbackOption option index key isDefault))
          opts 0;
        Ok (VArr controls)
    | _ => TypeError
    end
  else Ok (VArr []).

Definition renderChoice (callback output : value) (index : nat) (prompt : string)
  : outcome value :=
  choiceOutput ← findName output "choices";
  if truthy choiceOutput then
    v ← get choiceOutput "value";
    match v with
    | VUndefined => Ok (VArr [])
    | VArr opts =>
        choices ← map_from
          (fun option key =>
             input ← get callback "input";
             current ← get input "value";
             Ok (Choice (strict_eq_num current (Z.of_nat key)) key option))
          opts 0;
        Ok (renderChoiceCallback callback index prompt choices)
    | _ => TypeError
    end
  else Ok (VArr []).

Definition renderPollingWait (callback output : value) (index : nat) : js value :=
  waitTime ← pure (findName output "waitTime");
  pollingWaitTimeoutMs ← pure (get waitTime "value");
  _ ← emit (SetTimeout pollingWaitTimeoutMs);
  message ← pure (findName output "message");
  m ← pure (get message "value");
  mret (VStr (bundle.renderPollingWaitCallback callback index m)).

Definition renderCallback (callback : value) (index : nat) : js value :=
  output ← pure (get callback "output");
  prompt ← pure (prompt_of output);
  type ← pure (get callback "type");
  if strict_eq_str type "NameCallback" then
    pure (renderNameCallback callback index (VStr prompt))
  else if strict_eq_str type "PasswordCallback" then
    pure (renderPasswordCallback callback index (VStr prompt))
  else if strict_eq_str type "TextInputCallback" then
    pure (renderTextInputCallback callback index (VStr prompt))
  else if strict_eq_str type "TextOutputCallback" then
    pure (renderTextOutput output index)
  else if strict_eq_str type "ConfirmationCallback" then
    pure (renderConfirmation output index)
  else if strict_eq_str type "ChoiceCallback" then
    pure (renderChoice callback output index prompt)
  else if strict_eq_str type "HiddenValueCallback" then
    pure (html ← bundle.renderHiddenValueCallback callback index; Ok (VStr html))
  else if strict_eq_str type "RedirectCallback" then
    _ ← renderRedirect output; mret VUndefined
  else if strict_eq_str type "PollingWaitCallback" then
    renderPollingWait callback output index
  else
    pure (renderUnknownCallback callback index).

(** [renderedCallbacks.join("<br>\n")]: an element that is [undefined]
    or [null] is joined as nothing, an array as its elements separated by
    commas. *)
Definition joinRenderedCallbacks (renderedCallbacks : list value) : string :=
  String.concat ("<br>" +:+ nl)
    (map (fun item => match item with
                      | VUndefined | VNull => EmptyString
                      | _ => to_string item
                      end) renderedCallbacks).

Definition renderLogin (this : embeddedLogin) : js string :=
  callbacks ← pure (get (currentCallbacks this) "callbacks");
  match callbacks with
  | VArr items =>
      shown ← pure (callbacks_to_render items);
      renderedCallbacks ← map_js_from renderCallback shown 0;
      mret (joinRenderedCallbacks renderedCallbacks)
  | _ => pure TypeError
  end.

(** The type tags the switch of [index.js] has a case for. *)
Definition known_type (type : value) : bool :=
  existsb (strict_eq_str type)
    ["NameCallback"; "PasswordCallback"; "TextInputCallback"; "TextOutputCallback";
     "ConfirmationCallback"; "ChoiceCallback"; "HiddenValueCallback"; "RedirectCallback";
     "PollingWaitCallback"].

End index_js.

(** The node, or nodes, the current methods make of markup text. *)
Definition as_nodes (markup : value) : outcome rendered :=
  match markup with
  | VStr html => Ok (RNode (FirstElementOf html))
  | VArr items =>
      nodes ← map_from (fun item (_ : nat) =>
                          match item with
                          | VStr html => Ok (FirstElementOf html)
                          | _ => TypeError
                          end) items 0;
      Ok (RNodes nodes)
  | _ => TypeError
  end.

(** ** Names of the pattern [callback_<N>] *)

(** A submitted form with a field per credential, a field of the page's
    own, and names that resemble the pattern without having it. *)
Definition mixed_form : list (string * string) :=
  [("callback_1", "secret"); ("callback_2x", "mallory"); ("remember", "on");
   ("xcallback_2", "eve"); ("callback_", "nobody"); ("callback_1.0", "trent");
   ("callback_002", "alice")].

(** ** Reading markup *)

Definition quote_mark : ascii := Ascii false true false false false true false false.

(** The characters an attribute value holds as they are written: the
    printable ASCII characters other than the quotation mark, which ends
    the value, and the ampersand, which starts a character reference. *)
Definition plain_char (c : ascii) : bool :=
  let n := nat_of_ascii c in
  (32 <=? n) && (n <=? 126) && negb (n =? 34) && negb (n =? 38).

Fixpoint plain (s : string) : bool :=
  match s with
  | EmptyString => true
  | String c rest => plain_char c && plain rest
  end.

(** The characters of the tag and attribute names the templates write:
    lower-case letters, digits and the hyphen. *)
Definition name_char (c : ascii) : bool :=
  let n := nat_of_ascii c in
  ((97 <=? n) && (n <=? 122)) || ((48 <=? n) && (n <=? 57)) || (n =? 45).

(** The attributes of the start tag a markup begins with, as an HTML parser
    reads them, for markup of the form the templates write: after the tag
    name, attributes separated by spaces, each a name, [=] and a value of
    plain characters between quotation marks, up to the closing [>], which
    a [/] may precede. A value ends at the first quotation mark after the
    one that opens it. Markup of another form is not read: the result is
    [None]. *)
Inductive tag_state : Type :=
| InTagName
| BeforeName
| InName (name : string)
| BeforeValue (name : string)
| InValue (name text : string).

Fixpoint read_tag (state : tag_state) (s : string) : option (list (string * string)) :=
  match s with
  | EmptyString => None
  | String c rest =>
      match state with
      | InTagName =>
          if Ascii.eqb c " "%char then read_tag BeforeName rest
          else if Ascii.eqb c ">"%char then Some []
          else if name_char c then read_tag InTagName rest
          else None
      | BeforeName =>
          if Ascii.eqb c " "%char || Ascii.eqb c "/"%char then read_tag BeforeName rest
          else if Ascii.eqb c ">"%char then Some []
          else if name_char c then read_tag (InName (String c EmptyString)) rest
          else None
      | InName name =>
          if Ascii.eqb c "="%char then read_tag (BeforeValue name) rest
          else if name_char c then read_tag (InName (name +:+ String c EmptyString)) rest
          else None
      | BeforeValue name =>
          if Ascii.eqb c quote_mark then read_tag (InValue name EmptyString) rest
          else None
      | InValue name text =>
          if Ascii.eqb c quote_mark then cons (name, text) <$> read_tag BeforeName rest
          else if plain_char c then read_tag (InValue name (text +:+ String c EmptyString)) rest
          else None
      end
  end.

(** The value of an attribute: where a name is written more than once the
    parser keeps the first and drops the others. *)
Fixpoint first_binding (name : string) (attrs : list (string * string)) : option string :=
  match attrs with
  | [] => None
  | (k, text) :: rest => if bool_decide (k = name) then Some text else first_binding name rest
  end.

Fixpoint keep_first (seen : list string) (attrs : list (string * string))
  : list (string * string) :=
  match attrs with
  | [] => []
  | (k, text) :: rest =>
      if bool_decide (k ∈ seen) then keep_first seen rest
      else (k, text) :: keep_first (k :: seen) rest
  end.

Definition attributes (markup : string) : option (list (string * string)) :=
  match markup with
  | String "<"%char rest => keep_first [] <$> read_tag InTagName rest
  | _ => None
  end.

Definition attribute (name markup : string) : option string :=
  attrs ← attributes markup; first_binding name attrs.

(** ** Exchanges with several callbacks *)

Definition sign_in_exchange : value :=
  VObj [("callbacks", VArr [name_example; password_example])].

Definition confirm_exchange : value :=
  VObj [("callbacks", VArr [name_example; confirmation_example])].

Definition polling_exchange : value :=
  VObj [("callbacks", VArr [polling_example])].

Definition redirect_exchange : value :=
  VObj [("callbacks", VArr [redirect_list_example])].
(** * Properties *)

Local Open Scope list_scope.

(** Numbers print as the engine prints them: in full up to 21 digits, the
    digits beyond the shortest numeral that reads back as the number being
    zeros, and in exponent form from [10^21] on. *)
Lemma to_string_numbers :
  to_string (VNum 401) = "401"
  ∧ to_string (VNum (-5)) = "-5"
  ∧ to_string (VNum (2 ^ 53)) = "9007199254740992"
  ∧ to_string (VNum (2 ^ 53 + 1)) = "9007199254740992"
  ∧ to_string (VNum (2 ^ 64)) = "18446744073709552000"
  ∧ to_string (VNum (10 ^ 21)) = "1e+21"
  ∧ to_string (VNum (2 ^ 70)) = "1.1805916207174113e+21"
  ∧ to_string (VNum (10 ^ 23)) = "1e+23"
  ∧ to_string (VNum (- 10 ^ 400)) = "-Infinity"
  ∧ to_string (VArr [VNum 1; VNull; VArr [VStr "a"; VNum 2]]) = "1,,a,2".
Proof. repeat split; vm_compute; reflexivity. Qed.

Lemma lookup_assign_eq p x props : lookup_prop p (assign_prop p x props) = Some x.
Proof.
  induction props as [|[k y] rest IH]; simpl.
  - by rewrite bool_decide_eq_true_2.
  - destruct (bool_decide (k = p)) eqn:E; simpl; rewrite E; [done | apply IH].
Qed.

Lemma lookup_assign_ne p q x props :
  p ≠ q → lookup_prop q (assign_prop p x props) = lookup_prop q props.
Proof.
  intros Hne. induction props as [|[k y] rest IH]; simpl.
  - by rewrite bool_decide_eq_false_2.
  - destruct (bool_decide (k = p)) eqn:E; simpl.
    + apply bool_decide_eq_true_1 in E as ->. by rewrite !bool_decide_eq_false_2.
    + destruct (bool_decide (k = q)); [done | apply IH].
Qed.

Arguments findName_step : simpl never.

Lemma findName_step_found name f items :
  truthy f = true → foldl (findName_step name) (Ok f) items = Ok f.
Proof.
  intros Hf. induction items as [|item rest IH]; [done |].
  simpl. replace (findName_step name (Ok f) item) with (Ok f); [done |].
  unfold findName_step. simpl. by rewrite Hf.
Qed.

Lemma findName_step_named name item :
  (∃ props, item = VObj props) →
  findName_step name (Ok (VBool false)) item
  = Ok (if named name item then item else VBool false).
Proof. by intros [props ->]. Qed.

Lemma well_formed_entry_object item :
  well_formed_entry item = true → ∃ props, item = VObj props.
Proof. destruct item; try discriminate. eauto. Qed.

(** On a sequence of objects [findName] gives the first entry of that
    name, or [false]. *)
Lemma findName_entry name items :
  Forall (λ item, ∃ props, item = VObj props) items →
  findName (VArr items) name = Ok (default (VBool false) (entry name items)).
Proof.
  unfold findName, entry. induction 1 as [|item rest Hitem _ IH]; [done |].
  simpl. rewrite findName_step_named by done.
  destruct (named name item) eqn:E; [| done].
  destruct Hitem as [props ->]. by apply findName_step_found.
Qed.

Lemma entries_objects items :
  entries items → Forall (λ item, ∃ props, item = VObj props) items.
Proof.
  unfold entries. rewrite forallb_forall, Forall_forall.
  intros H item Hin. apply well_formed_entry_object, H. by apply list_elem_of_In.
Qed.

Lemma entry_named name items item : entry name items = Some item → named name item = true.
Proof. intros H. by apply find_some in H as [_ ?]. Qed.

(** [findName(output, name).value] is the value of that output. *)
Lemma findName_value name items :
  entries items →
  (findName (VArr items) name ≫= λ e, get e "value") = Ok (output_value name items).
Proof.
  intros H. rewrite (findName_entry name items) by by apply entries_objects.
  unfold output_value. destruct (entry name items) as [item|] eqn:E; [| done].
  simpl. apply entry_named in E. by destruct item.
Qed.

Lemma entry_in name items item : entry name items = Some item → In item items.
Proof. intros H. by apply find_some in H as [? _]. Qed.

Lemma prompt_of_entries items :
  entries items → prompt_of (VArr items) = Ok (prompt_text items).
Proof.
  intros H. unfold prompt_of, prompt_text, output_value.
  rewrite (findName_entry "prompt" items) by by apply entries_objects.
  destruct (entry "prompt" items) as [item|] eqn:E; [| done].
  pose proof (entry_named _ _ _ E) as Hnamed.
  apply entry_in in E. unfold entries in H. rewrite forallb_forall in H.
  specialize (H _ E). destruct item; try discriminate.
  simpl in H. simpl in Hnamed. rewrite Hnamed in H. simpl.
  destruct (lookup_prop "value" props) as [[| | | |s| |]|]; try discriminate; try done.
  destruct s as [|c s]; [done |]. done.
Qed.

(** Running a pure step inside an effectful computation. *)
Lemma pure_bind {A B} (m : outcome A) (f : A → js B) (a : A) :
  m = Ok a → (pure m ≫= f) = f a.
Proof.
  intros ->. unfold mbind, js_bind, pure. simpl. by destruct (f a).
Qed.

Section RenderFacts.
Context `{M : Methods}.

(** What [renderCallback] does with a descriptor of type [t] whose output
    is a well-formed sequence: the switch, with the prompt computed. *)
Lemma renderCallback_switch callback index t output :
  get callback "type" = Ok t →
  get callback "output" = Ok (VArr output) →
  entries output →
  renderCallback callback index =
    let prompt := prompt_text output in
    if strict_eq_str t "NameCallback" then
      pure (renderNameCallback callback index prompt)
    else if strict_eq_str t "PasswordCallback" then
      pure (renderPasswordCallback callback index prompt)
    else if strict_eq_str t "TextInputCallback" then
      pure (renderTextInputCallback callback index prompt)
    else if strict_eq_str t "TextOutputCallback" then
      pure (renderTextOutput (VArr output) index)
    else if strict_eq_str t "ConfirmationCallback" then
      pure (renderConfirmation (VArr output) index)
    else if strict_eq_str t "ChoiceCallback" then
      pure (renderChoice callback (VArr output) index prompt)
    else if strict_eq_str t "HiddenValueCallback" then
      pure (renderHiddenValueCallback callback index)
    else if strict_eq_str t "RedirectCallback" then
      renderRedirect (VArr output)
    else if strict_eq_str t "PollingWaitCallback" then
      renderPollingWait callback (VArr output) index
    else if strict_eq_str t "ReCaptchaCallback" then
      pure (renderReCaptchaCallback callback index prompt)
    else
      pure (renderUnknownCallback callback index prompt).
Proof.
  intros Ht Ho He. unfold renderCallback.
  rewrite (pure_bind _ _ _ Ho).
  rewrite (pure_bind _ _ _ (prompt_of_entries _ He)).
  by rewrite (pure_bind _ _ _ Ht).
Qed.

(** The text-output case on a well-formed output sequence. *)
Lemma renderTextOutput_entries output index :
  entries output →
  renderTextOutput (VArr output) index =
    let t := output_value "messageType" output in
    let m := output_value "message" output in
    if strict_eq_str t "4" then renderTextOutputScript index m
    else renderTextOutputMessage index m (messageTypeMap t).
Proof.
  intros He. unfold renderTextOutput.
  pose proof (findName_value "messageType" output He) as Ht.
  pose proof (findName_value "message" output He) as Hm.
  destruct (findName (VArr output) "messageType") as [type|]; [| done].
  destruct (findName (VArr output) "message") as [message|]; [| done].
  simpl in *. rewrite Ht. simpl.
  destruct (strict_eq_str _ "4"); by rewrite Hm.
Qed.

End RenderFacts.

(** ** Text output *)

Lemma message_block_markup index typeValue text :
  prototype.renderTextOutputMessage index (VStr text) typeValue
  = Ok (RNode (FirstElementOf (message_block index (class_text typeValue) text))).
Proof. done. Qed.

(** A key that is none of the literal's own and no member of
    [Object.prototype] is looked up as [undefined]. *)
Lemma messageTypeMap_other k :
  to_string k ∉ ["0"; "1"; "2"] →
  to_string k ∉ object_prototype_members →
  messageTypeMap k = Own VUndefined.
Proof.
  intros Hown Hproto. unfold messageTypeMap. cbv zeta.
  rewrite !not_elem_of_cons in Hown. destruct Hown as (H0 & H1 & H2 & _).
  rewrite !bool_decide_eq_false_2 by done. done.
Qed.

(** C5. A TextOutputCallback whose [messageType] output is the string "4"
    is rendered as a script element whose source is the [message] output,
    unchanged. With any other [messageType] it is rendered as a message
    block whose class is the text of what [messageTypeMap] holds for that
    value: "0" gives INFORMATION, "1" gives WARNING, "2" gives ERROR, a
    value that is no key of the literal and names no member of
    [Object.prototype] gives the class "undefined". *)
Theorem text_output_script_or_message callback index output text :
  get callback "type" = Ok (VStr "TextOutputCallback") →
  get callback "output" = Ok (VArr output) →
  entries output →
  output_value "message" output = VStr text →
  (output_value "messageType" output = VStr "4" →
     renderCallback callback index = Js (Ok (RNode (ScriptElement text))) [])
  ∧ (output_value "messageType" output ≠ VStr "4" →
     renderCallback callback index =
       Js (Ok (RNode (FirstElementOf
         (message_block index
            (class_text (messageTypeMap (output_value "messageType" output))) text)))) [])
  ∧ class_text (messageTypeMap (VStr "0")) = "INFORMATION"
  ∧ class_text (messageTypeMap (VStr "1")) = "WARNING"
  ∧ class_text (messageTypeMap (VStr "2")) = "ERROR"
  ∧ (to_string (output_value "messageType" output) ∉ ["0"; "1"; "2"] →
     to_string (output_value "messageType" output) ∉ object_prototype_members →
     class_text (messageTypeMap (output_value "messageType" output)) = "undefined").
Proof.
  intros Ht Ho He Hm.
  rewrite (renderCallback_switch _ _ _ _ Ht Ho He). simpl.
  rewrite (renderTextOutput_entries _ _ He), Hm. simpl.
  split; [| split; [| split; [| split; [| split]]]]; try done.
  - by intros ->.
  - intros Hne. destruct (output_value "messageType" output) as [| | | |s| |]; try done.
    simpl. destruct (bool_decide (s = "4")) eqn:E; [| done].
    apply bool_decide_eq_true_1 in E. by subst.
  - intros Hown Hproto. by rewrite (messageTypeMap_other _ Hown Hproto).
Qed.

Lemma text_output_script_or_message_witness :
  renderCallback script_example 0
  = Js (Ok (RNode (ScriptElement "document.forms[0].submit();"))) []
  ∧ renderCallback warning_example 3
    = Js (Ok (RNode (FirstElementOf (message_block 3 "WARNING" "Password expires soon")))) []
  ∧ renderCallback
      (descriptor "TextOutputCallback"
         [pair "message" (VStr "Welcome"); pair "messageType" (VStr "3")] []) 1
    = Js (Ok (RNode (FirstElementOf (message_block 1 "undefined" "Welcome")))) []
  ∧ renderCallback
      (descriptor "TextOutputCallback"
         [pair "message" (VStr "Welcome"); pair "messageType" (VStr "constructor")] []) 1
    = Js (Ok (RNode (FirstElementOf
        (message_block 1 "function Object() { [native code] }" "Welcome")))) [].
Proof.
  split; [| split; [| split]].
  - apply (text_output_script_or_message script_example 0
             [pair "message" (VStr "document.forms[0].submit();"); pair "messageType" (VStr "4")]
             "document.forms[0].submit();"); reflexivity.
  - apply (text_output_script_or_message warning_example 3
             [pair "message" (VStr "Password expires soon"); pair "messageType" (VStr "1")]
             "Password expires soon"); try reflexivity. discriminate.
  - destruct (text_output_script_or_message
                (descriptor "TextOutputCallback"
                   [pair "message" (VStr "Welcome"); pair "messageType" (VStr "3")] []) 1
                [pair "message" (VStr "Welcome"); pair "messageType" (VStr "3")] "Welcome"
                eq_refl eq_refl eq_refl eq_refl) as (_ & Hblock & _ & _ & _ & Hclass).
    rewrite Hblock by discriminate. rewrite Hclass; [reflexivity | |].
    + vm_compute. intros H. repeat (inversion_clear H as [| ? ? ? H0]; rename H0 into H).
    + vm_compute. intros H. repeat (inversion_clear H as [| ? ? ? H0]; rename H0 into H).
  - apply (text_output_script_or_message
             (descriptor "TextOutputCallback"
                [pair "message" (VStr "Welcome"); pair "messageType" (VStr "constructor")] []) 1
             [pair "message" (VStr "Welcome"); pair "messageType" (VStr "constructor")]
             "Welcome"); try reflexivity. discriminate.
Defined.

(** ** Reading outputs *)

Lemma entry_value name output :
  get (default (VBool false) (entry name output)) "value" = Ok (output_value name output).
Proof.
  unfold output_value. destruct (entry name output) as [item|] eqn:E; [| done].
  apply entry_named in E. by destruct item.
Qed.

Lemma entry_truthy name output :
  truthy (default (VBool false) (entry name output)) = bool_decide (is_Some (entry name output)).
Proof.
  destruct (entry name output) as [item|] eqn:E; [| done].
  apply entry_named in E. by destruct item.
Qed.

Lemma output_value_missing name output :
  entry name output = None → output_value name output = VUndefined.
Proof. unfold output_value. by intros ->. Qed.

Lemma map_from_total {A B} (f : A → nat → outcome B) (g : nat → A → B) l i :
  (∀ x k, f x k = Ok (g k x)) →
  map_from f l i = Ok (imap (λ k, g (i + k)) l).
Proof.
  intros Hf. revert i. induction l as [|x rest IH]; intros i; [done |].
  simpl. rewrite Hf, (IH (S i)). simpl. rewrite Nat.add_0_r. do 2 f_equal.
  apply imap_ext. intros k y _. simpl. f_equal. lia.
Qed.

Section RedirectAndPolling.
Context `{M : Methods}.

Lemma renderRedirect_entries output :
  entries output →
  redirectable (output_value "redirectData" output) = true →
  renderRedirect (VArr output) =
    Js (Ok RNothing)
       [SubmitForm (to_string (output_value "redirectUrl" output))
                   (to_string (output_value "redirectMethod" output))
                   (redirect_fields (output_value "redirectData" output))].
Proof.
  intros He Hd. apply entries_objects in He. unfold renderRedirect.
  rewrite !(pure_bind _ _ _ (findName_entry _ _ He)).
  rewrite !(pure_bind _ _ _ (entry_value _ _)).
  rewrite entry_truthy, entry_value. simpl.
  assert ((if bool_decide (is_Some (entry "redirectData" output))
           then if truthy (output_value "redirectData" output)
                then match output_value "redirectData" output with
                     | VArr items => Ok (imap (λ k v, (dec k, dom_string v)) items)
                     | _ => TypeError
                     end
                else Ok []
           else Ok [])
          = Ok (redirect_fields (output_value "redirectData" output))) as ->.
  { destruct (entry "redirectData" output) eqn:E.
    - rewrite bool_decide_eq_true_2 by eauto.
      destruct (output_value "redirectData" output) as [| |[]|n|[]| |];
        simpl in Hd; try discriminate; try done.
      simpl. by destruct (n =? 0)%Z.
    - rewrite bool_decide_eq_false_2 by (by intros [? ?]).
      by rewrite (output_value_missing _ _ E). }
  done.
Qed.

Lemma renderPollingWait_entries callback output index :
  entries output →
  renderPollingWait callback (VArr output) index =
    Js (renderPollingWaitCallback callback index (output_value "message" output))
       [SetTimeout (output_value "waitTime" output)].
Proof.
  intros He. apply entries_objects in He. unfold renderPollingWait.
  rewrite !(pure_bind _ _ _ (findName_entry _ _ He)).
  rewrite !(pure_bind _ _ _ (entry_value _ _)).
  done.
Qed.

End RedirectAndPolling.

(** ** Hidden values *)

Lemma string_app_cons x (a b : string) : String x a +:+ b = String x (a +:+ b).
Proof. reflexivity. Qed.

Lemma string_app_nil (b : string) : EmptyString +:+ b = b.
Proof. reflexivity. Qed.

Lemma string_app_assoc (a b c : string) : (a +:+ b) +:+ c = a +:+ (b +:+ c).
Proof.
  induction a as [|x a IH]; [done |]. by rewrite !string_app_cons, IH.
Qed.

Lemma string_app_empty (a : string) : a +:+ EmptyString = a.
Proof.
  induction a as [|x a IH]; [done |]. by rewrite string_app_cons, IH.
Qed.

Ltac string_cons := repeat (rewrite string_app_cons || rewrite string_app_nil).

(** A value of plain characters is read, as it stands, up to the
    quotation mark that closes it. *)
Lemma read_tag_value name text ident rest :
  plain ident = true →
  read_tag (InValue name text) (ident +:+ String quote_mark rest)
  = cons (name, text +:+ ident) <$> read_tag BeforeName rest.
Proof.
  revert text. induction ident as [|c ident IH]; intros text Hp.
  - rewrite string_app_nil, string_app_empty. cbn [read_tag].
    by rewrite Ascii.eqb_refl.
  - simpl in Hp. apply andb_true_iff in Hp as [Hc Hp].
    rewrite string_app_cons. cbn [read_tag].
    replace (Ascii.eqb c quote_mark) with false.
    + rewrite Hc, (IH _ Hp). by rewrite string_app_assoc, string_app_cons, string_app_nil.
    + symmetry. apply Ascii.eqb_neq. intros ->. discriminate Hc.
Qed.

Lemma plain_numeral d : plain (NilEmpty.string_of_uint d) = true.
Proof. induction d; simpl; auto. Qed.

Lemma plain_dec n : plain (dec n) = true.
Proof. apply plain_numeral. Qed.

Ltac eval_chars :=
  repeat match goal with
         | |- context [name_char ?c] =>
             let b := eval vm_compute in (name_char c) in change (name_char c) with b
         | |- context [plain_char ?c] =>
             let b := eval vm_compute in (plain_char c) in change (plain_char c) with b
         end.

Ltac read_on :=
  cbn [read_tag Ascii.eqb Bool.eqb orb andb negb quote_mark]; eval_chars; cbv iota;
  string_cons;
  change (Ascii false true false false false true false false) with quote_mark.

(** The attributes of the hidden field, when the text put into [id] is
    plain. *)
Lemma hidden_field_attributes ident index :
  plain ident = true →
  attributes (prototype.hidden_field ident index)
  = Some [("type", "hidden"); ("id", ident); ("aria-hidden", "true");
          ("name", field_name index); ("value", EmptyString)].
Proof.
  intros Hp. unfold prototype.hidden_field, attr, dq, field_name.
  rewrite !string_app_assoc. string_cons.
  unfold attributes. read_on.
  rewrite (read_tag_value _ _ _ _ Hp). read_on.
  rewrite (read_tag_value _ _ _ _ (plain_dec index)). read_on.
  reflexivity.
Qed.

(** C9, as amended. A HiddenValueCallback is rendered as the hidden-field
    template: a field of type hidden named [callback_<index>], written with
    an empty [value] attribute, the one text taken from the descriptor
    being put, as it is, into the [id] attribute. When that text is plain
    (printable ASCII without quotation mark and ampersand) the field has
    exactly the attributes the template writes, and its value is empty. *)
Theorem hidden_value_field_is_empty callback index output input v :
  get callback "type" = Ok (VStr "HiddenValueCallback") →
  get callback "output" = Ok (VArr output) →
  entries output →
  get callback "input" = Ok input →
  get input "value" = Ok v →
  let markup :=
    "<input " +:+ attr "type" "hidden" +:+ " " +:+ attr "id" (to_string v) +:+ " "
    +:+ attr "aria-hidden" "true" +:+ " " +:+ attr "name" ("callback_" +:+ dec index)
    +:+ " " +:+ attr "value" EmptyString +:+ " />" in
  renderCallback callback index = Js (Ok (RNode (FirstElementOf markup))) []
  ∧ (plain (to_string v) = true →
     attributes markup
     = Some [("type", "hidden"); ("id", to_string v); ("aria-hidden", "true");
             ("name", field_name index); ("value", EmptyString)]
     ∧ attribute "value" markup = Some EmptyString).
Proof.
  intros Ht Ho He Hi Hv markup. split.
  - rewrite (renderCallback_switch _ _ _ _ Ht Ho He). simpl.
    unfold prototype.renderHiddenValueCallback. rewrite Hi. simpl. by rewrite Hv.
  - intros Hp. unfold attribute.
    change markup with (prototype.hidden_field (to_string v) index).
    rewrite (hidden_field_attributes _ _ Hp). split; [done |].
    reflexivity.
Qed.

Lemma hidden_value_field_is_empty_witness :
  renderCallback hidden_example 1
  = Js (Ok (RNode (FirstElementOf (prototype.hidden_field "undefined" 1)))) []
  ∧ attribute "value" (prototype.hidden_field "undefined" 1) = Some EmptyString
  ∧ attribute "id" (prototype.hidden_field "undefined" 1) = Some "undefined"
  ∧ attribute "name" (prototype.hidden_field "undefined" 1) = Some "callback_1".
Proof.
  destruct (hidden_value_field_is_empty hidden_example 1
              [pair "value" (VStr EmptyString); pair "id" (VStr "jsOutput")]
              (VArr [pair "IDToken1" (VStr "abc123")]) VUndefined
              eq_refl eq_refl eq_refl eq_refl eq_refl) as (Hr & Ha).
  destruct (Ha eq_refl) as (Hattrs & Hvalue).
  split; [exact Hr |]. split; [exact Hvalue |].
  unfold attribute. change (prototype.hidden_field "undefined" 1) with
    ("<input " +:+ attr "type" "hidden" +:+ " " +:+ attr "id" (to_string VUndefined) +:+ " "
     +:+ attr "aria-hidden" "true" +:+ " " +:+ attr "name" ("callback_" +:+ dec 1)
     +:+ " " +:+ attr "value" EmptyString +:+ " />").
  rewrite Hattrs. split; reflexivity.
Defined.

(** The quotation mark matters: a text with one closes the [id] attribute
    and what follows it is read as further attributes of the field, so a
    [value] written there is the value of the field. *)
Lemma hidden_field_quote_in_id :
  let ident := "x" +:+ dq +:+ " value=" +:+ dq +:+ "abc123" in
  plain ident = false
  ∧ attribute "id" (prototype.hidden_field ident 0) = Some "x"
  ∧ attribute "value" (prototype.hidden_field ident 0) = Some "abc123".
Proof. repeat split; reflexivity. Qed.

(** C9 as stated fails: the input value "abc123" of the descriptor is not
    the value of the rendered field, which is empty, be the input a
    sequence of pairs or a single slot. *)
Lemma hidden_value_not_seeded :
  input_value (VObj [("callbacks", VArr [hidden_example])]) 0 = Ok (VStr "abc123")
  ∧ renderCallback hidden_example 0
    = Js (Ok (RNode (FirstElementOf (prototype.hidden_field "undefined" 0)))) []
  ∧ contains "abc123" (prototype.hidden_field "undefined" 0) = false
  ∧ renderCallback hidden_single_slot_example 0
    = Js (Ok (RNode (FirstElementOf (prototype.hidden_field "abc123" 0)))) []
  ∧ contains (attr "value" "abc123") (prototype.hidden_field "abc123" 0) = false
  ∧ contains (attr "value" EmptyString) (prototype.hidden_field "abc123" 0) = true
  ∧ bundle.renderHiddenValueCallback hidden_example 0
    = Ok (prototype.hidden_field "undefined" 0).
Proof. repeat split; reflexivity. Qed.

(** ** Missing outputs *)

(** C10, as amended. A missing output makes no render path fault: the
    lookup gives [false], whose [value] is [undefined], and rendering goes
    on with [undefined] in its place. A TextOutputCallback is rendered as
    a unit, with the class "undefined" when [messageType] is missing; a
    RedirectCallback submits its form; a PollingWaitCallback sets its
    timer and is rendered as a unit. *)
Theorem missing_output_is_undefined callback index output :
  get callback "output" = Ok (VArr output) →
  entries output →
  (∀ name, entry name output = None → output_value name output = VUndefined)
  ∧ (get callback "type" = Ok (VStr "TextOutputCallback") →
     (output_value "messageType" output = VStr "4" →
        renderCallback callback index =
          Js (Ok (RNode (ScriptElement (dom_string (output_value "message" output))))) [])
     ∧ (output_value "messageType" output ≠ VStr "4" →
        renderCallback callback index =
          Js (Ok (RNode (FirstElementOf
            (message_block index
               (class_text (messageTypeMap (output_value "messageType" output)))
               (to_string (output_value "message" output)))))) [])
     ∧ (entry "messageType" output = None →
        class_text (messageTypeMap (output_value "messageType" output)) = "undefined"))
  ∧ (get callback "type" = Ok (VStr "RedirectCallback") →
     redirectable (output_value "redirectData" output) = true →
     renderCallback callback index =
       Js (Ok RNothing)
          [SubmitForm (to_string (output_value "redirectUrl" output))
                      (to_string (output_value "redirectMethod" output))
                      (redirect_fields (output_value "redirectData" output))])
  ∧ (get callback "type" = Ok (VStr "PollingWaitCallback") →
     ∀ input v, get callback "input" = Ok input → get input "value" = Ok v →
     renderCallback callback index =
       Js (Ok (RNode (FirstElementOf (prototype.hidden_field (to_string v) index))))
          [SetTimeout (output_value "waitTime" output)]).
Proof.
  intros Ho He. split; [intros name; apply output_value_missing |].
  split; [| split].
  - intros Ht. rewrite (renderCallback_switch _ _ _ _ Ht Ho He). simpl.
    rewrite (renderTextOutput_entries _ _ He). simpl.
    split; [| split].
    + by intros ->.
    + intros Hne.
      destruct (strict_eq_str (output_value "messageType" output) "4") eqn:E; [| done].
      destruct (output_value "messageType" output); try discriminate.
      simpl in E. apply bool_decide_eq_true_1 in E. by subst.
    + intros Hnone. by rewrite (output_value_missing _ _ Hnone).
  - intros Ht Hd. rewrite (renderCallback_switch _ _ _ _ Ht Ho He). simpl.
    by apply renderRedirect_entries.
  - intros Ht input v Hi Hv. rewrite (renderCallback_switch _ _ _ _ Ht Ho He). simpl.
    rewrite (renderPollingWait_entries _ _ _ He). simpl.
    unfold prototype.renderPollingWaitCallback. rewrite Hi. simpl. by rewrite Hv.
Qed.

Lemma missing_output_is_undefined_witness :
  renderCallback empty_redirect_example 0
  = Js (Ok RNothing) [SubmitForm "undefined" "undefined" []]
  ∧ renderCallback empty_text_output_example 1
    = Js (Ok (RNode (FirstElementOf (message_block 1 "undefined" "undefined")))) []
  ∧ renderCallback empty_polling_example 2
    = Js (Ok (RNode (FirstElementOf (prototype.hidden_field "undefined" 2))))
         [SetTimeout VUndefined].
Proof.
  split; [| split].
  - destruct (missing_output_is_undefined empty_redirect_example 0 [] eq_refl eq_refl)
      as (_ & _ & H & _).
    exact (H eq_refl eq_refl).
  - destruct (missing_output_is_undefined empty_text_output_example 1 [] eq_refl eq_refl)
      as (_ & H & _).
    destruct (H eq_refl) as (_ & Hblock & _). apply Hblock. discriminate.
  - destruct (missing_output_is_undefined empty_polling_example 2 [] eq_refl eq_refl)
      as (_ & _ & _ & H).
    exact (H eq_refl (VArr []) VUndefined eq_refl eq_refl).
Defined.

(** C10 as stated fails: with every expected output missing, each of the
    three descriptors is rendered without a fault. *)
Lemma missing_output_does_not_fault :
  renderCallback empty_text_output_example 0
  = Js (Ok (RNode (FirstElementOf (message_block 0 "undefined" "undefined")))) []
  ∧ renderCallback empty_redirect_example 1
    = Js (Ok RNothing) [SubmitForm "undefined" "undefined" []]
  ∧ renderCallback empty_polling_example 2
    = Js (Ok (RNode (FirstElementOf (prototype.hidden_field "undefined" 2))))
         [SetTimeout VUndefined].
Proof. repeat split; reflexivity. Qed.

(** ** Polling *)

(** When the timer set by a PollingWaitCallback fires, the flag is set and
    nothing else happens: the exchange is as it was and no request is
    made. *)
Lemma timer_fires_sets_flag this :
  pollingInProgress (timer_fires this) = VBool true
  ∧ currentCallbacks (timer_fires this) = currentCallbacks this.
Proof. done. Qed.

(** On a well-formed descriptor the timer is set with the [waitTime]
    output as its delay, and the [message] output is handed to
    [renderPollingWaitCallback]. *)
Lemma polling_wait_sets_timer `{M : Methods} callback index output :
  get callback "type" = Ok (VStr "PollingWaitCallback") →
  get callback "output" = Ok (VArr output) →
  entries output →
  renderCallback callback index =
    Js (renderPollingWaitCallback callback index (output_value "message" output))
       [SetTimeout (output_value "waitTime" output)].
Proof.
  intros Ht Ho He. rewrite (renderCallback_switch _ _ _ _ Ht Ho He). simpl.
  by apply renderPollingWait_entries.
Qed.

(** C8 at a PollingWaitCallback with a message: the timer is set with the
    wait time, but the unit rendered is a hidden field in which the message
    does not occur; without an [input] property the rendering faults. The
    string-rendering variant shows the message. *)
Theorem polling_wait_message_not_rendered :
  renderCallback polling_example 0
  = Js (Ok (RNode (FirstElementOf (prototype.hidden_field "undefined" 0))))
       [SetTimeout (VStr "8000")]
  ∧ contains "Waiting for response..." (prototype.hidden_field "undefined" 0) = false
  ∧ renderCallback polling_without_input_example 0
    = Js TypeError [SetTimeout (VStr "8000")]
  ∧ bundle.renderPollingWaitCallback polling_example 0
      (output_value "message" [pair "waitTime" (VStr "8000");
                               pair "message" (VStr "Waiting for response...")])
    = "<h4>Waiting for response...</h4>".
Proof. repeat split; reflexivity. Qed.

(** ** Choices *)

(** With the input of a ChoiceCallback being a sequence, as the server
    sends it, [callback.input.value] is [undefined] and no choice is
    active. *)
Lemma choice_input_sequence_inactive `{M : Methods} callback index output opts inputs :
  get callback "type" = Ok (VStr "ChoiceCallback") →
  get callback "output" = Ok (VArr output) →
  entries output →
  output_value "choices" output = VArr opts →
  get callback "input" = Ok (VArr inputs) →
  renderCallback callback index =
    pure (renderChoiceCallback callback index (prompt_text output)
            (imap (λ key option, Choice false key option) opts)).
Proof.
  intros Ht Ho He Hc Hi. rewrite (renderCallback_switch _ _ _ _ Ht Ho He). simpl.
  unfold renderChoice.
  rewrite (findName_entry "choices" _ (entries_objects _ He)).
  destruct (entry "choices" output) as [item|] eqn:E.
  - pose proof (entry_named _ _ _ E) as Hn.
    unfold output_value in Hc. rewrite E in Hc.
    destruct item as [| | | | | |props]; try discriminate Hn.
    simpl. rewrite Hc. simpl.
    rewrite (map_from_total _ (λ key option, Choice false key option)).
    + done.
    + intros x k. by rewrite Hi.
  - by rewrite (output_value_missing _ _ E) in Hc.
Qed.

(** C7 at a ChoiceCallback whose current input value is 1: the entry of
    index 1 is not active, and no option of the markup is selected. *)
Theorem choice_not_preselected :
  input_value (VObj [("callbacks", VArr [choice_example])]) 0 = Ok (VNum 1)
  ∧ renderCallback choice_example 2
    = pure (prototype.renderChoiceCallback choice_example 2 "Second factor"
              [Choice false 0 (VStr "Email"); Choice false 1 (VStr "SMS")])
  ∧ ∀ markup,
      result (renderCallback choice_example 2) = Ok (RNode (FirstElementOf markup)) →
      contains "selected" markup = false.
Proof.
  split; [reflexivity |]. split; [reflexivity |].
  intros markup H. vm_compute in H. injection H as <-. reflexivity.
Qed.

(** ** Confirmations *)

Lemma map_from_ext {A B} (f g : A → nat → outcome B) l i :
  (∀ x k, f x k = g x k) → map_from f l i = map_from g l i.
Proof.
  intros H. revert i. induction l as [|x rest IH]; intros i; [done |].
  simpl. by rewrite H, IH.
Qed.

Lemma map_from_length {A B} (f : A → nat → outcome B) l i ys :
  map_from f l i = Ok ys → length ys = length l.
Proof.
  revert i ys. induction l as [|x rest IH]; intros i ys; simpl.
  - by intros [= <-].
  - destruct (f x i); [| done]. simpl.
    destruct (map_from f rest (S i)) eqn:E; [| done]. simpl.
    intros [= <-]. simpl. f_equal. by eapply IH.
Qed.

Lemma is_default_entry name output key :
  is_default (default (VBool false) (entry name output)) key
  = Ok (strict_eq_num (output_value name output) (Z.of_nat key)).
Proof.
  unfold is_default. rewrite entry_truthy, entry_value.
  destruct (entry name output) eqn:E.
  - by rewrite bool_decide_eq_true_2 by eauto.
  - rewrite bool_decide_eq_false_2 by (by intros [? ?]).
    by rewrite (output_value_missing _ _ E).
Qed.

Lemma submit_control_markup option index key isDefault :
  prototype.renderConfirmationCallbackOption option index key isDefault
  = Ok (FirstElementOf (submit_control index key (to_string option))).
Proof. done. Qed.

(** C6. A ConfirmationCallback with an [options] output is rendered by
    calling the option renderer once per option, in order, with the
    option's index and its default mark; the library's renderer makes each
    a submit control. A sole option is marked default whatever
    [defaultOption] says; of several options, the one whose index is the
    [defaultOption] output is marked and no other. *)
Theorem confirmation_controls_and_default `{M : Methods} callback index output opts :
  get callback "type" = Ok (VStr "ConfirmationCallback") →
  get callback "output" = Ok (VArr output) →
  entries output →
  output_value "options" output = VArr opts →
  ∃ marks : nat → bool,
    renderCallback callback index =
      pure (nodes ← map_from
                      (λ option key,
                         renderConfirmationCallbackOption option index key (marks key))
                      opts 0;
            Ok (RNodes nodes))
    ∧ (∀ nodes, result (renderCallback callback index) = Ok (RNodes nodes) →
       length nodes = length opts)
    ∧ @renderCallback library_methods callback index =
        Js (Ok (RNodes (imap (λ key option,
                                FirstElementOf (submit_control index key (to_string option)))
                             opts))) []
    ∧ (length opts = 1 → marks 0 = true)
    ∧ (1 < length opts →
       ∀ d, output_value "defaultOption" output = VNum d →
       ∀ key, marks key = true ↔ Z.of_nat key = d).
Proof.
  intros Ht Ho He Hopts.
  set (marks := λ key : nat,
         strict_eq_num
           (if 1 <? length opts then output_value "defaultOption" output else VNum 0)
           (Z.of_nat key)).
  assert (∀ M' : Methods,
            @renderCallback M' callback index =
              pure (nodes ← map_from
                              (λ option key,
                                 @renderConfirmationCallbackOption M' option index key
                                   (marks key))
                              opts 0;
                    Ok (RNodes nodes))) as Hrender.
  { intros M'. rewrite (renderCallback_switch _ _ _ _ Ht Ho He). simpl.
    unfold renderConfirmation.
    rewrite (findName_entry "options" _ (entries_objects _ He)).
    rewrite (findName_entry "defaultOption" _ (entries_objects _ He)).
    destruct (entry "options" output) as [item|] eqn:E;
      [| by rewrite (output_value_missing _ _ E) in Hopts].
    pose proof (entry_named _ _ _ E) as Hn.
    unfold output_value in Hopts. rewrite E in Hopts.
    destruct item as [| | | | | |props]; try discriminate Hn.
    simpl. rewrite Hopts. simpl. unfold marks.
    destruct (1 <? length opts) eqn:Hlen; simpl.
    - do 2 f_equal. apply map_from_ext. intros x k.
      by rewrite is_default_entry.
    - done. }
  exists marks. split; [apply Hrender |]. split; [| split; [| split]].
  - intros nodes. rewrite Hrender. simpl.
    destruct (map_from _ opts 0) as [ys|] eqn:E; [| done]. simpl.
    intros [= <-]. by eapply map_from_length.
  - rewrite Hrender. simpl.
    by rewrite (map_from_total _
      (λ key option, FirstElementOf (submit_control index key (to_string option)))).
  - intros Hlen. unfold marks. by rewrite Hlen.
  - intros Hlen d Hd key. unfold marks.
    apply Nat.ltb_lt in Hlen. rewrite Hlen, Hd. simpl. apply Z.eqb_eq || (split; intros; lia).
Qed.

Lemma confirmation_controls_and_default_witness :
  ∃ marks : nat → bool,
    renderCallback confirmation_example 4 =
      pure (nodes ← map_from
                      (λ option key,
                         renderConfirmationCallbackOption option 4 key (marks key))
                      [VStr "Yes"; VStr "No"; VStr "Cancel"] 0;
            Ok (RNodes nodes))
    ∧ marks 0 = false ∧ marks 1 = true ∧ marks 2 = false.
Proof.
  destruct (confirmation_controls_and_default (M := library_methods)
              confirmation_example 4
              [pair "prompt" (VStr EmptyString);
               pair "options" (VArr [VStr "Yes"; VStr "No"; VStr "Cancel"]);
               pair "defaultOption" (VNum 1)]
              [VStr "Yes"; VStr "No"; VStr "Cancel"]
              eq_refl eq_refl eq_refl eq_refl)
    as (marks & Hrender & _ & _ & _ & Hmark).
  exists marks. split; [exact Hrender |].
  assert (1 < 3) as Hlen by lia.
  pose proof (Hmark Hlen 1%Z eq_refl) as H.
  repeat split.
  - destruct (marks 0) eqn:E; [| done]. by apply H in E.
  - by apply H.
  - destruct (marks 2) eqn:E; [| done]. by apply H in E.
Defined.

(** ** The laws of effectful computations *)

Lemma js_eta {A} (m : js A) : Js (result m) (effects m) = m.
Proof. by destruct m. Qed.

Lemma js_ret_bind {A B} (a : A) (f : A → js B) : (mret a ≫= f) = f a.
Proof. unfold mbind, js_bind, mret, js_ret. simpl. apply js_eta. Qed.

Lemma js_bind_ret {A} (m : js A) : (m ≫= mret) = m.
Proof.
  destruct m as [[a|] es]; unfold mbind, js_bind, mret, js_ret; simpl; [| done].
  by rewrite app_nil_r.
Qed.

Lemma js_bind_assoc {A B C} (m : js A) (f : A → js B) (g : B → js C) :
  ((m ≫= f) ≫= g) = (m ≫= λ a, f a ≫= g).
Proof.
  destruct m as [[a|] es]; unfold mbind, js_bind; simpl; [| done].
  destruct (f a) as [[b|] es']; simpl; [| done].
  by rewrite app_assoc.
Qed.

Lemma map_js_from_app {A B} (f : A → nat → js B) l1 l2 i :
  map_js_from f (l1 ++ l2) i =
    (ys1 ← map_js_from f l1 i;
     ys2 ← map_js_from f l2 (i + length l1);
     mret (ys1 ++ ys2)).
Proof.
  revert i. induction l1 as [|x rest IH]; intros i; simpl.
  - rewrite Nat.add_0_r. destruct (map_js_from f l2 i) as [[ys|] e]; [| done].
    unfold mbind, js_bind, mret, js_ret. simpl. by rewrite app_nil_r.
  - rewrite IH. replace (i + S (length rest)) with (S i + length rest) by lia.
    destruct (f x i) as [[y|] e1]; [| done].
    destruct (map_js_from f rest (S i)) as [[ys|] e2];
      [| unfold mbind, js_bind; simpl; done].
    destruct (map_js_from f l2 (S i + length rest)) as [[ys2|] e3];
      unfold mbind, js_bind, mret, js_ret; simpl; by rewrite ?app_nil_r, ?app_assoc.
Qed.

Lemma map_js_from_one {A B} (f : A → nat → js B) x i :
  map_js_from f [x] i = (y ← f x i; mret [y]).
Proof.
  simpl. destruct (f x i) as [[y|] es]; [| done].
  unfold mbind, js_bind, mret, js_ret. simpl. by rewrite !app_nil_r.
Qed.

(** ** The login button *)

Arguments has_button_step : simpl never.

Lemma has_button_fold b items :
  forallb readable items = true →
  foldl has_button_step (Ok b) items = Ok (b || existsb ends items).
Proof.
  revert b. induction items as [|callback rest IH]; intros b; simpl.
  - by rewrite orb_false_r.
  - intros [Hr Hrest]%andb_true_iff.
    unfold readable in Hr. unfold ends.
    destruct (get callback "type") as [type|] eqn:E; [| done].
    replace (has_button_step (Ok b) callback) with (Ok (b || ends_flow type)).
    + rewrite (IH _ Hrest). by rewrite orb_assoc.
    + unfold has_button_step. simpl. destruct b; [done |]. by rewrite E.
Qed.

Lemma flatten_snoc renderedCallbacks item :
  flatten (renderedCallbacks ++ [item]) =
    flatten renderedCallbacks ++ match item with
                                 | RNode n => [Some n]
                                 | RNodes ns => map Some ns
                                 | RNothing => [None]
                                 end.
Proof. unfold flatten. by rewrite foldl_app. Qed.

Lemma append_children_snoc items n :
  append_children (items ++ [Some n]) =
    (children ← append_children items; Ok (children ++ [n; Br])).
Proof.
  induction items as [|[m|] rest IH]; simpl; [done | | done].
  rewrite IH. by destruct (append_children rest).
Qed.

Lemma joinRenderedCallbacks_button renderedCallbacks button :
  joinRenderedCallbacks (renderedCallbacks ++ [RNodes [button]]) =
    (children ← joinRenderedCallbacks renderedCallbacks; Ok (children ++ [button; Br])).
Proof.
  unfold joinRenderedCallbacks. rewrite flatten_snoc. simpl.
  apply append_children_snoc.
Qed.

(** The membership test names three types. *)
Lemma ends_flow_types type :
  ends_flow type = true
  ↔ type ∈ [VStr "ConfirmationCallback"; VStr "PollingWaitCallback"; VStr "RedirectCallback"].
Proof.
  unfold ends_flow. rewrite !orb_true_iff, !elem_of_cons, elem_of_nil.
  assert (∀ s, strict_eq_str type s = true ↔ type = VStr s) as Heq.
  { intros s. destruct type; simpl; try (split; [discriminate | done]).
    rewrite bool_decide_eq_true. split; congruence. }
  rewrite !Heq. tauto.
Qed.

Lemma existsb_ends items :
  existsb ends items = true
  ↔ ∃ callback type,
      callback ∈ items ∧ get callback "type" = Ok type
      ∧ type ∈ [VStr "ConfirmationCallback"; VStr "PollingWaitCallback";
                VStr "RedirectCallback"].
Proof.
  rewrite existsb_exists. split.
  - intros (callback & Hin & He). unfold ends in He.
    destruct (get callback "type") as [type|] eqn:E; [| done].
    exists callback, type. split; [by apply list_elem_of_In |]. split; [done |].
    by apply ends_flow_types.
  - intros (callback & type & Hin & Ht & Hmem). exists callback.
    split; [by apply list_elem_of_In |]. unfold ends. rewrite Ht.
    by apply ends_flow_types.
Qed.

Section LoginButton.
Context `{M : Methods}.

(** The synthesized callback is rendered as one option, marked default. *)
Lemma renderCallback_loginCallback count index :
  renderCallback (loginCallback count) index =
    pure (button ← renderConfirmationCallbackOption getLoginButtonText index 0 true;
          Ok (RNodes [button])).
Proof.
  unfold renderCallback, loginCallback. simpl.
  unfold mbind at 1, js_bind, pure. simpl.
  unfold renderConfirmation. simpl.
  by destruct (renderConfirmationCallbackOption getLoginButtonText index 0 true).
Qed.

(** What [renderAllCallbacks] renders, by the membership test. *)
Lemma renderAllCallbacks_button this items :
  get (currentCallbacks this) "callbacks" = Ok (VArr items) →
  forallb readable items = true →
  renderAllCallbacks this =
    if existsb ends items then
      renderedCallbacks ← map_js_from renderCallback items 0;
      pure (joinRenderedCallbacks renderedCallbacks)
    else
      renderedCallbacks ← map_js_from renderCallback items 0;
      button ← pure (renderConfirmationCallbackOption
                       getLoginButtonText (length items) 0 true);
      pure (children ← joinRenderedCallbacks renderedCallbacks;
            Ok (children ++ [button; Br])).
Proof.
  intros Hc Hr.
  assert (callbacks_to_render items =
            Ok (if existsb ends items then items
                else items ++ [loginCallback (length items)])) as Hshown.
  { unfold callbacks_to_render. rewrite (has_button_fold _ _ Hr). simpl.
    by destruct (existsb ends items). }
  unfold renderAllCallbacks. rewrite (pure_bind _ _ _ Hc).
  rewrite (pure_bind _ _ _ Hshown).
  destruct (existsb ends items); [done |].
  rewrite map_js_from_app, map_js_from_one, Nat.add_0_l.
  rewrite renderCallback_loginCallback.
  destruct (map_js_from renderCallback items 0) as [[rs|] es]; [| done].
  destruct (renderConfirmationCallbackOption getLoginButtonText (length items) 0 true)
    as [button|]; unfold mbind, js_bind, mret, js_ret, pure; simpl;
    rewrite ?app_nil_r; [| done].
  by rewrite joinRenderedCallbacks_button.
Qed.

(** C4. When no callback has the type ConfirmationCallback,
    PollingWaitCallback or RedirectCallback, the rendered form is made of
    the units of the original callbacks, in their order and with their
    indices, followed by one login button: the option renderer called
    once, for the login text, at the index after the last callback. When
    some callback has one of the three types the form is made of the
    original units alone. The library's button is a submit control
    labelled "Login". *)
Theorem login_button_synthesized this items :
  get (currentCallbacks this) "callbacks" = Ok (VArr items) →
  forallb readable items = true →
  ((∀ callback type,
      callback ∈ items → get callback "type" = Ok type →
      type ∉ [VStr "ConfirmationCallback"; VStr "PollingWaitCallback";
              VStr "RedirectCallback"]) →
     renderAllCallbacks this =
       (renderedCallbacks ← map_js_from renderCallback items 0;
        button ← pure (renderConfirmationCallbackOption
                         getLoginButtonText (length items) 0 true);
        pure (children ← joinRenderedCallbacks renderedCallbacks;
              Ok (children ++ [button; Br]))))
  ∧ ((∃ callback type,
        callback ∈ items ∧ get callback "type" = Ok type
        ∧ type ∈ [VStr "ConfirmationCallback"; VStr "PollingWaitCallback";
                  VStr "RedirectCallback"]) →
     renderAllCallbacks this =
       (renderedCallbacks ← map_js_from renderCallback items 0;
        pure (joinRenderedCallbacks renderedCallbacks)))
  ∧ @renderConfirmationCallbackOption library_methods
      (@getLoginButtonText library_methods) (length items) 0 true
    = Ok (FirstElementOf (submit_control (length items) 0 "Login")).
Proof.
  intros Hc Hr. rewrite (renderAllCallbacks_button _ _ Hc Hr).
  split; [| split; [| done]].
  - intros Hnone. destruct (existsb ends items) eqn:E; [| done].
    apply existsb_ends in E as (callback & type & Hin & Ht & Hmem).
    by destruct (Hnone _ _ Hin Ht).
  - intros Hsome. apply existsb_ends in Hsome. by rewrite Hsome.
Qed.

End LoginButton.

Ltac other_type Hin Hget :=
  repeat (apply elem_of_cons in Hin as [->|Hin];
          [vm_compute in Hget; injection Hget as <-;
           let Hmem := fresh in
           intros Hmem;
           repeat (apply elem_of_cons in Hmem as [Hmem|Hmem]; [discriminate Hmem |]);
           by apply not_elem_of_nil in Hmem |]);
  by apply not_elem_of_nil in Hin.

Lemma login_button_synthesized_witness :
  renderAllCallbacks (instance_with name_exchange) =
    Js (Ok [FirstElementOf
              ("<input " +:+ attr "type" "text" +:+ " " +:+ attr "name" "callback_0"
               +:+ " " +:+ attr "value" EmptyString +:+ " "
               +:+ attr "placeholder" "User Name" +:+ ">");
            Br;
            FirstElementOf (submit_control 1 0 "Login");
            Br]) []
  ∧ renderAllCallbacks (instance_with sign_in_exchange) =
    Js (Ok [FirstElementOf (text_field "text" 0 EmptyString "User Name");
            Br;
            FirstElementOf (text_field "password" 1 "hunter2" "Password");
            Br;
            FirstElementOf (submit_control 2 0 "Login");
            Br]) []
  ∧ renderAllCallbacks (instance_with confirm_exchange) =
    Js (Ok [FirstElementOf (text_field "text" 0 EmptyString "User Name");
            Br;
            FirstElementOf (submit_control 1 0 "Yes");
            Br;
            FirstElementOf (submit_control 1 1 "No");
            Br;
            FirstElementOf (submit_control 1 2 "Cancel");
            Br]) []
  ∧ renderAllCallbacks (instance_with polling_exchange) =
    Js (Ok [FirstElementOf (prototype.hidden_field "undefined" 0); Br])
       [SetTimeout (VStr "8000")]
  ∧ renderAllCallbacks (instance_with redirect_exchange) =
    Js TypeError [SubmitForm "https://idp.example.com/sso" "POST"
                    [("0", "PHNhbWw="); ("1", EmptyString)]].
Proof.
  split; [| split; [| split; [| split]]].
  - destruct (login_button_synthesized (M := library_methods)
                (instance_with name_exchange) [name_example] eq_refl eq_refl)
      as (H & _ & _).
    rewrite H; [reflexivity |]. intros callback type Hin Hget. other_type Hin Hget.
  - destruct (login_button_synthesized (M := library_methods)
                (instance_with sign_in_exchange) [name_example; password_example]
                eq_refl eq_refl) as (H & _ & _).
    rewrite H; [reflexivity |]. intros callback type Hin Hget. other_type Hin Hget.
  - destruct (login_button_synthesized (M := library_methods)
                (instance_with confirm_exchange) [name_example; confirmation_example]
                eq_refl eq_refl) as (_ & H & _).
    rewrite H; [reflexivity |].
    exists confirmation_example, (VStr "ConfirmationCallback").
    split; [repeat constructor |]. split; [reflexivity | repeat constructor].
  - destruct (login_button_synthesized (M := library_methods)
                (instance_with polling_exchange) [polling_example]
                eq_refl eq_refl) as (_ & H & _).
    rewrite H; [reflexivity |].
    exists polling_example, (VStr "PollingWaitCallback").
    split; [repeat constructor |]. split; [reflexivity | repeat constructor].
  - destruct (login_button_synthesized (M := library_methods)
                (instance_with redirect_exchange) [redirect_list_example]
                eq_refl eq_refl) as (_ & H & _).
    rewrite H; [reflexivity |].
    exists redirect_list_example, (VStr "RedirectCallback").
    split; [repeat constructor |]. split; [reflexivity | repeat constructor].
Defined.

(** ** Classification *)

Section Classification.
Context `{M : Methods}.

(** C1. For an exchange that is an object: [success] holds exactly when
    [tokenId] is truthy, whatever the other fields are; [failure] holds
    exactly when [authId] is undefined and [code] is the number 401, so
    never when [authId] is there; and when neither holds the response is
    handed to the renderer. [handleCallbackResponse] asks [success]
    first: with the handlers given, a success calls the success handler
    and, that aside, a failure calls the failure handler. *)
Theorem classification this props :
  currentCallbacks this = VObj props →
  (success this = Ok true ↔
     truthy (default VUndefined (lookup_prop "tokenId" props)) = true)
  ∧ (failure this = Ok true ↔
       default VUndefined (lookup_prop "authId" props) = VUndefined
       ∧ default VUndefined (lookup_prop "code" props) = VNum 401)
  ∧ (default VUndefined (lookup_prop "authId" props) ≠ VUndefined →
     failure this = Ok false)
  ∧ (success this = Ok false → failure this = Ok false →
     handleCallbackResponse this = continuation this)
  ∧ (success this = Ok true → successHandler this = true →
     handleCallbackResponse this = emit CallSuccessHandler)
  ∧ (success this = Ok false → failure this = Ok true → failureHandler this = true →
     handleCallbackResponse this = emit CallFailureHandler).
Proof.
  intros Hcur.
  assert (success this
          = Ok (truthy (default VUndefined (lookup_prop "tokenId" props)))) as Hs.
  { unfold success. by rewrite Hcur. }
  assert (failure this
          = Ok (is_undefined (default VUndefined (lookup_prop "authId" props))
                && strict_eq_num (default VUndefined (lookup_prop "code" props)) 401))
    as Hf.
  { unfold failure. rewrite Hcur. simpl.
    by destruct (default VUndefined (lookup_prop "authId" props)). }
  split; [| split; [| split; [| split; [| split]]]].
  - rewrite Hs. split; [by intros [= ->] | by intros ->].
  - rewrite Hf. split.
    + intros [= H]. apply andb_true_iff in H as [Ha Hc]. split.
      * by destruct (default VUndefined (lookup_prop "authId" props)).
      * destruct (default VUndefined (lookup_prop "code" props)); try done.
        simpl in Hc. apply Z.eqb_eq in Hc. by subst.
    + by intros [-> ->].
  - intros Ha. rewrite Hf.
    by destruct (default VUndefined (lookup_prop "authId" props)).
  - intros Hs' Hf'. unfold handleCallbackResponse.
    rewrite (pure_bind _ _ _ Hs'). simpl. by rewrite (pure_bind _ _ _ Hf').
  - intros Hs' Hh. unfold handleCallbackResponse.
    rewrite (pure_bind _ _ _ Hs'). by rewrite Hh.
  - intros Hs' Hf' Hh. unfold handleCallbackResponse.
    rewrite (pure_bind _ _ _ Hs'). simpl. rewrite (pure_bind _ _ _ Hf'). by rewrite Hh.
Qed.

End Classification.

Lemma classification_witness :
  failure (instance_with retry_exchange) = Ok false
  ∧ handleCallbackResponse (instance_with rejected_exchange) = emit CallFailureHandler
  ∧ handleCallbackResponse (instance_with token_exchange) = emit CallSuccessHandler.
Proof.
  split; [| split].
  - destruct (classification (M := library_methods) (instance_with retry_exchange)
                [("authId", VStr "eyJ0eXAi"); ("code", VNum 401);
                 ("callbacks", VArr [name_example])] eq_refl)
      as (_ & _ & H & _).
    by apply H.
  - destruct (classification (M := library_methods) (instance_with rejected_exchange)
                [("code", VNum 401); ("reason", VStr "Unauthorized");
                 ("message", VStr "Authentication Failed")] eq_refl)
      as (_ & _ & _ & _ & _ & H).
    by apply H.
  - destruct (classification (M := library_methods) (instance_with token_exchange)
                [("tokenId", VStr "AQIC5w"); ("successUrl", VStr "/console");
                 ("code", VNum 401)] eq_refl)
      as (_ & _ & _ & _ & H & _).
    by apply H.
Defined.

(** ** Field names *)

Lemma parse_digits_uint d acc :
  parse_digits (NilEmpty.string_of_uint d) acc = Some (Nat.of_uint_acc d acc).
Proof.
  revert acc.
  induction d as [|d IH|d IH|d IH|d IH|d IH|d IH|d IH|d IH|d IH|d IH]; intros acc;
    [done | ..];
    cbn [NilEmpty.string_of_uint parse_digits Nat.of_uint_acc];
    change (digit_value _) with (Some 0) || change (digit_value _) with (Some 1)
    || change (digit_value _) with (Some 2) || change (digit_value _) with (Some 3)
    || change (digit_value _) with (Some 4) || change (digit_value _) with (Some 5)
    || change (digit_value _) with (Some 6) || change (digit_value _) with (Some 7)
    || change (digit_value _) with (Some 8) || change (digit_value _) with (Some 9);
    cbv iota; rewrite IH, Nat.tail_mul_spec; do 2 f_equal; lia.
Qed.

Lemma dec_not_empty n : dec n ≠ EmptyString.
Proof.
  unfold dec. intros H.
  assert (Nat.to_uint n = Decimal.Nil) as Hnil.
  { destruct (Nat.to_uint n); try done. }
  pose proof (DecimalNat.Unsigned.of_to n) as Hn. rewrite Hnil in Hn. simpl in Hn. subst n.
  discriminate Hnil.
Qed.

Lemma match_callback_digits s :
  s ≠ EmptyString → match_callback ("callback_" +:+ s) = parse_digits s 0.
Proof. by destruct s. Qed.

(** A field named after an index addresses that index. *)
Lemma match_callback_field_name n : match_callback (field_name n) = Some n.
Proof.
  unfold field_name. rewrite match_callback_digits by apply dec_not_empty.
  unfold dec. rewrite parse_digits_uint.
  change (Nat.of_uint_acc (Nat.to_uint n) 0) with (Nat.of_uint (Nat.to_uint n)).
  by rewrite DecimalNat.Unsigned.of_to.
Qed.

(** ** The names that have the pattern *)

Lemma drop_prefix_app prefix s rest :
  drop_prefix prefix s = Some rest → s = prefix +:+ rest.
Proof.
  revert s. induction prefix as [|a prefix IH]; intros s H.
  - by injection H as ->.
  - destruct s as [|b s]; [done |]. simpl in H.
    case_bool_decide; [| done]. subst. rewrite string_app_cons. f_equal. by apply IH.
Qed.

(** A character with a digit value is one of the ten digits. *)
Lemma digit_value_numeral c n d :
  digit_value c = Some n → ∃ d', uint_of_char c (Some d) = Some d'.
Proof.
  destruct c as [[] [] [] [] [] [] [] []]; intros H; vm_compute in H;
    try discriminate H; simpl; eauto.
Qed.

(** What [parse_digits] accepts is a numeral. *)
Lemma parse_digits_numeral s acc n :
  parse_digits s acc = Some n → ∃ d, NilEmpty.uint_of_string s = Some d.
Proof.
  revert acc. induction s as [|c s IH]; intros acc H; [by eexists |].
  cbn [parse_digits] in H. destruct (digit_value c) as [v|] eqn:E; [| done].
  destruct (IH _ H) as [d Hd]. cbn [NilEmpty.uint_of_string]. rewrite Hd.
  by apply (digit_value_numeral c v).
Qed.

(** A numeral is a run of zeros followed by the numeral of its value. *)
Lemma numeral_zeros d :
  d ≠ Decimal.Nil →
  ∃ k, NilEmpty.string_of_uint d = zeros k +:+ NilEmpty.string_of_uint (Decimal.unorm d).
Proof.
  induction d as [|d IH|d IH|d IH|d IH|d IH|d IH|d IH|d IH|d IH|d IH]; intros Hn;
    [done | | by exists 0 ..].
  destruct d as [|d|d|d|d|d|d|d|d|d|d]; [by exists 0 | ..];
    (destruct IH as [k Hk]; [done |]; exists (S k);
     cbn [NilEmpty.string_of_uint zeros] in *; rewrite string_app_cons; f_equal;
     exact Hk).
Qed.

Lemma parse_digits_zeros k s : parse_digits (zeros k +:+ s) 0 = parse_digits s 0.
Proof.
  induction k as [|k IH]; [done |].
  cbn [zeros]. rewrite string_app_cons. cbn [parse_digits].
  change (digit_value "0") with (Some 0). exact IH.
Qed.

(** The names [match_callback] accepts for the index [n] are [callback_]
    followed by the decimal numeral of [n], with any number of zeros before
    it; it accepts no other name. *)
Lemma match_callback_pattern name n :
  match_callback name = Some n ↔ ∃ k, name = "callback_" +:+ zeros k +:+ dec n.
Proof.
  split.
  - unfold match_callback.
    destruct (drop_prefix "callback_" name) as [digits|] eqn:E; [| done].
    apply drop_prefix_app in E. destruct digits as [|c rest]; [done |]. intros H.
    destruct (parse_digits_numeral _ _ _ H) as [d Hd].
    pose proof (NilEmpty.sus _ _ Hd) as Hs. rewrite <- Hs in H.
    rewrite parse_digits_uint in H. injection H as <-.
    change (Nat.of_uint_acc d 0) with (Nat.of_uint d).
    destruct (numeral_zeros d) as [k Hk]; [by intros -> |].
    exists k. rewrite E, <- Hs, Hk. unfold dec.
    by rewrite DecimalNat.Unsigned.to_of.
  - intros [k ->]. rewrite match_callback_digits.
    + rewrite parse_digits_zeros. unfold dec. rewrite parse_digits_uint.
      change (Nat.of_uint_acc (Nat.to_uint n) 0) with (Nat.of_uint (Nat.to_uint n)).
      by rewrite DecimalNat.Unsigned.of_to.
    + destruct k; [rewrite string_app_nil; apply dec_not_empty | done].
Qed.

(** ** Writing an input value *)

Lemma get_callbacks_object cur items :
  get cur "callbacks" = Ok (VArr items) → ∃ props, cur = VObj props.
Proof.
  destruct cur as [| | | |s|l|props]; simpl; try discriminate; eauto.
Qed.

Lemma get_input_object callback input :
  get callback "input" = Ok (VArr input) → ∃ props, callback = VObj props.
Proof.
  destruct callback as [| | | |s|l|props]; simpl; try discriminate; eauto.
Qed.

Lemma get_put p child props : get (put (VObj props) p child) p = Ok child.
Proof. simpl. by rewrite lookup_assign_eq. Qed.

Lemma get_put_ne p q child props :
  p ≠ q → get (put (VObj props) p child) q = get (VObj props) q.
Proof. intros H. simpl. by rewrite lookup_assign_ne. Qed.

(** An assignment to a writable slot succeeds and is what is read back;
    the other callbacks keep their input values, and every writable slot
    stays writable. *)
Lemma write_input_writable cur n x :
  writable cur n →
  ∃ cur',
    write_input cur n x = Ok cur'
    ∧ input_value cur' n = Ok x
    ∧ (∀ m, m ≠ n → input_value cur' m = input_value cur m)
    ∧ (∀ m, writable cur m → writable cur' m).
Proof.
  intros (items & callback & slot & more & Hc & Hn & Hi).
  destruct (get_callbacks_object _ _ Hc) as [props ->].
  destruct (get_input_object _ _ Hi) as [cprops ->].
  set (callback' :=
         put (VObj cprops) "input" (VArr (VObj (assign_prop "value" x slot) :: more))).
  exists (put (VObj props) "callbacks" (VArr (<[n := callback']> items))).
  assert (n < length items) as Hlen by by eapply lookup_lt_Some.
  split; [| split; [| split]].
  - unfold write_input, write_slot. rewrite Hc. simpl. rewrite Hn. simpl.
    simpl in Hi. injection Hi as Hi. by rewrite Hi.
  - unfold input_value. rewrite get_put. simpl.
    rewrite list_lookup_insert_eq by done. simpl.
    rewrite lookup_assign_eq. simpl. by rewrite lookup_assign_eq.
  - intros m Hm. unfold input_value. rewrite get_put, Hc. simpl.
    by rewrite list_lookup_insert_ne.
  - intros m (items0 & callback0 & slot0 & more0 & Hc0 & Hm & Hi0).
    rewrite Hc in Hc0. injection Hc0 as <-.
    destruct (decide (m = n)) as [->|Hne].
    + exists (<[n := callback']> items), callback', (assign_prop "value" x slot), more.
      split; [apply get_put |]. split; [by apply list_lookup_insert_eq |].
      apply get_put.
    + exists (<[n := callback']> items), callback0, slot0, more0.
      split; [apply get_put |]. split; [| done].
      by rewrite list_lookup_insert_ne.
Qed.

(** Entries that do not have the pattern take no part in the loop. *)
Lemma copy_fields_addressed cur entries :
  copy_fields cur (filter addressed entries) = copy_fields cur entries.
Proof.
  revert cur. induction entries as [|entry rest IH]; intros cur; [done |].
  rewrite filter_cons. destruct (decide (addressed entry)) as [[n E]|Hno]; simpl.
  - rewrite E. destruct (write_input cur n (VStr entry.2)); [apply IH | done].
  - destruct (match_callback entry.1) as [n|] eqn:E; [| apply IH].
    exfalso. apply Hno. unfold addressed. rewrite E. eauto.
Qed.

Lemma copy_fields_unaddressed cur entries :
  Forall (λ entry, match_callback entry.1 = None) entries →
  copy_fields cur entries = (cur, Ok tt).
Proof.
  induction 1 as [|entry rest He _ IH]; [done |]. simpl. by rewrite He.
Qed.

Lemma copy_fields_writes cur entries :
  (∀ name v n, (name, v) ∈ entries → match_callback name = Some n → writable cur n) →
  ∃ cur',
    copy_fields cur entries = (cur', Ok tt)
    ∧ ∀ n, input_value cur' n =
           match last_field entries n with
           | Some v => Ok (VStr v)
           | None => input_value cur n
           end.
Proof.
  revert cur. induction entries as [|[name v] rest IH]; intros cur Hw.
  - by exists cur.
  - simpl. destruct (match_callback name) as [n|] eqn:E.
    + destruct (write_input_writable cur n (VStr v)) as (cur1 & Hwrite & Hread & Hother & Hkeep).
      { eapply Hw; [apply list_elem_of_here | done]. }
      rewrite Hwrite.
      destruct (IH cur1) as (cur' & Hcopy & Hvalues).
      { intros name' v' m Hin Hm. apply Hkeep. eapply Hw; [| done].
        apply list_elem_of_further, Hin. }
      exists cur'. split; [done |]. intros m. rewrite Hvalues.
      destruct (last_field rest m); [done |].
      destruct (decide (m = n)) as [->|Hne].
      * by rewrite bool_decide_eq_true_2.
      * rewrite bool_decide_eq_false_2 by congruence. by apply Hother.
    + destruct (IH cur) as (cur' & Hcopy & Hvalues).
      { intros name' v' m Hin Hm. eapply Hw; [| done]. apply list_elem_of_further, Hin. }
      exists cur'. split; [done |]. intros m. rewrite Hvalues.
      destruct (last_field rest m); [done |].
      by rewrite bool_decide_eq_false_2.
Qed.

(** ** The submitted sequence *)

Lemma input_written_trans a b c :
  input_written a b → input_written b c → input_written a c.
Proof.
  intros Hab Hbc. induction Hbc as [|b c' c'' x _ IH Hw]; [done |].
  eapply input_assigned; [by apply IH | done].
Qed.

(** An assignment to the input value leaves every other property of the
    callback as it was. *)
Lemma write_slot_other callback callback' x p :
  write_slot callback x = Ok callback' → p ≠ "input" → get callback' p = get callback p.
Proof.
  unfold write_slot. intros H Hp.
  destruct callback as [| | | |s|l|props]; try discriminate.
  destruct (get (VObj props) "input" ≫= λ input, get_index input 0 ≫= λ slot,
              set_value slot x ≫= λ slot', Ok (input, slot')) as [[input slot']|] eqn:E.
  - assert (callback' = put (VObj props) "input" (put_index input 0 slot')) as ->.
    { simpl in *. destruct (get_index _ 0) as [slot|]; [| done]. simpl in *.
      destruct (set_value slot x); [| done]. simpl in *. congruence. }
    by apply get_put_ne.
  - simpl in *. destruct (get_index _ 0) as [slot|]; [| done]. simpl in *.
    by destruct (set_value slot x).
Qed.

Lemma input_written_other callback callback' p :
  input_written callback callback' → p ≠ "input" → get callback' p = get callback p.
Proof.
  intros H Hp. induction H as [|callback callback' callback'' x _ IH Hw]; [done |].
  by rewrite (write_slot_other _ _ _ _ Hw Hp).
Qed.

(** One assignment of the loop: the callbacks stay a sequence of the same
    callbacks, the addressed one with its input value written. *)
Lemma write_input_sequence cur n x cur' items :
  get cur "callbacks" = Ok (VArr items) →
  write_input cur n x = Ok cur' →
  ∃ items',
    get cur' "callbacks" = Ok (VArr items')
    ∧ Forall2 input_written items items'
    ∧ ∀ p, p ≠ "callbacks" → get cur' p = get cur p.
Proof.
  intros Hc Hw. destruct (get_callbacks_object _ _ Hc) as [props ->].
  unfold write_input in Hw. rewrite Hc in Hw. simpl in Hw.
  destruct (items !! n) as [callback|] eqn:En; [| done]. simpl in Hw.
  destruct (write_slot callback x) as [callback'|] eqn:Ew; [| done].
  simpl in Hw. injection Hw as <-.
  exists (<[n := callback']> items). split; [apply get_put |]. split.
  - rewrite <- (list_insert_id items n callback En) at 1.
    apply Forall2_insert.
    + apply Forall_Forall2_diag, Forall_forall. intros. apply input_kept.
    + eapply input_assigned; [apply input_kept | done].
  - intros p Hp. by apply get_put_ne.
Qed.

Lemma copy_fields_sequence cur entries cur' copied items :
  get cur "callbacks" = Ok (VArr items) →
  copy_fields cur entries = (cur', copied) →
  ∃ items',
    get cur' "callbacks" = Ok (VArr items')
    ∧ Forall2 input_written items items'
    ∧ ∀ p, p ≠ "callbacks" → get cur' p = get cur p.
Proof.
  revert cur items. induction entries as [|entry rest IH]; intros cur items Hc Hcopy.
  - injection Hcopy as <- _. exists items. split; [done |]. split; [| done].
    apply Forall_Forall2_diag, Forall_forall. intros. apply input_kept.
  - simpl in Hcopy. destruct (match_callback entry.1) as [n|]; [| by eapply IH].
    destruct (write_input cur n (VStr entry.2)) as [cur1|] eqn:Ew.
    + destruct (write_input_sequence _ _ _ _ _ Hc Ew) as (items1 & Hc1 & H1 & Hp1).
      destruct (IH _ _ Hc1 Hcopy) as (items' & Hc' & H' & Hp').
      exists items'. split; [done |]. split.
      * eapply Forall2_trans; [| done | done]. apply input_written_trans.
      * intros p Hp. by rewrite Hp', Hp1.
    + injection Hcopy as <- _. exists items. split; [done |]. split; [| done].
      apply Forall_Forall2_diag, Forall_forall. intros. apply input_kept.
Qed.

(** ** Rendering sends no request *)

Lemma silent_pure {A} (m : outcome A) : silent (pure m).
Proof. constructor. Qed.

Lemma silent_ret {A} (a : A) : silent (mret a).
Proof. constructor. Qed.

Lemma silent_emit e : is_request e = false → silent (emit e).
Proof. intros H. by repeat constructor. Qed.

Lemma silent_bind {A B} (m : js A) (f : A → js B) :
  silent m → (∀ a, silent (f a)) → silent (m ≫= f).
Proof.
  unfold silent. intros Hm Hf. destruct m as [[a|] es]; unfold mbind, js_bind; simpl.
  - apply Forall_app. split; [done | apply Hf].
  - done.
Qed.

Ltac silent :=
  repeat first
    [ apply silent_pure
    | apply silent_ret
    | apply silent_emit; reflexivity
    | apply silent_bind; [| intros ?]
    | match goal with |- silent (if ?b then _ else _) => destruct b end
    | match goal with |- silent (match ?v with _ => _ end) => destruct v end ].

Section Silence.
Context `{M : Methods}.

Lemma renderCallback_silent callback index : silent (renderCallback callback index).
Proof. unfold renderCallback, renderRedirect, renderPollingWait. silent. Qed.

Lemma map_js_from_silent {A B} (f : A → nat → js B) l i :
  (∀ x k, silent (f x k)) → silent (map_js_from f l i).
Proof.
  intros Hf. revert i. induction l as [|x rest IH]; intros i; simpl.
  - apply silent_ret.
  - apply silent_bind; [apply Hf |]. intros y.
    apply silent_bind; [apply IH |]. intros ys. apply silent_ret.
Qed.

Lemma renderAllCallbacks_silent this : silent (renderAllCallbacks this).
Proof.
  unfold renderAllCallbacks. apply silent_bind; [apply silent_pure |].
  intros callbacks. destruct callbacks; try apply silent_pure.
  apply silent_bind; [apply silent_pure |]. intros shown.
  apply silent_bind; [| intros; apply silent_pure].
  apply map_js_from_silent. intros. apply renderCallback_silent.
Qed.

Lemma handleCallbackResponse_silent this : silent (handleCallbackResponse this).
Proof.
  unfold handleCallbackResponse, continuation, renderHandler.
  apply silent_bind; [apply silent_pure |]. intros succeeded.
  destruct (succeeded && successHandler this); [by apply silent_emit |].
  apply silent_bind; [apply silent_pure |]. intros failed.
  destruct (failed && failureHandler this); [by apply silent_emit |].
  apply silent_bind; [apply renderAllCallbacks_silent |]. intros loginContent.
  silent.
Qed.

(** The requests of a submit: one, with the exchange after the loop as
    its body, when the loop completes; none when it faults. *)
Lemma handleLoginSubmit_request this entries jsonResp cur' copied :
  copy_fields (currentCallbacks this) entries = (cur', copied) →
  ∀ body,
    Fetch body ∈ effects (handleLoginSubmit this entries jsonResp).2 →
    body = cur' ∧ copied = Ok tt.
Proof.
  intros Hcopy body. unfold handleLoginSubmit. rewrite Hcopy.
  destruct copied as [[]|]; simpl; [| by intros ?%elem_of_nil].
  unfold mbind, js_bind. simpl.
  intros [H|H]%elem_of_cons; [by injection H as -> |].
  pose proof (handleCallbackResponse_silent
                (with_currentCallbacks (with_currentCallbacks this cur') jsonResp)) as Hs.
  unfold silent in Hs. rewrite Forall_forall in Hs. by apply Hs in H.
Qed.

End Silence.

Section Submit.
Context `{M : Methods}.

(** C3. A field name has the pattern when it is [callback_] followed by
    the decimal numeral of an index N, zeros before the numeral allowed;
    no other name has it. When the fields that have the pattern address
    callbacks with an input slot, [handleLoginSubmit] sends its request,
    and in the exchange it sends [input[0].value] of callback N is the
    value of the field named for N (of the last one, should several be
    named for it), while callbacks without a field keep their value.
    Fields of any other name are skipped: the exchange sent is the one the
    patterned fields alone produce, and it is the stored exchange itself
    when no field has the pattern. *)
Theorem submitted_fields_are_written this entries jsonResp :
  (∀ name v n, (name, v) ∈ entries → match_callback name = Some n →
               writable (currentCallbacks this) n) →
  ∃ body rest,
    effects (handleLoginSubmit this entries jsonResp).2 = Fetch body :: rest
    ∧ (∀ n, input_value body n =
            match last_field entries n with
            | Some v => Ok (VStr v)
            | None => input_value (currentCallbacks this) n
            end)
    ∧ (∀ name n, match_callback name = Some n
                 ↔ ∃ k, name = "callback_" +:+ zeros k +:+ dec n)
    ∧ (∀ n, match_callback (field_name n) = Some n)
    ∧ copy_fields (currentCallbacks this) (filter addressed entries) = (body, Ok tt)
    ∧ ((∀ name v k n, (name, v) ∈ entries → name ≠ "callback_" +:+ zeros k +:+ dec n) →
       body = currentCallbacks this).
Proof.
  intros Hw.
  destruct (copy_fields_writes _ entries Hw) as (cur' & Hcopy & Hvalues).
  exists cur'. eexists. split.
  { unfold handleLoginSubmit. rewrite Hcopy. simpl.
    unfold mbind, js_bind. simpl. reflexivity. }
  split; [done |]. split; [apply match_callback_pattern |].
  split; [apply match_callback_field_name |]. split.
  - by rewrite copy_fields_addressed.
  - intros Hnone.
    assert (Forall (λ entry, match_callback entry.1 = None) entries) as Hall.
    { apply Forall_forall. intros [name v] Hin. simpl.
      destruct (match_callback name) as [n|] eqn:E; [| done].
      apply match_callback_pattern in E as [k ->]. by destruct (Hnone _ v k n Hin). }
    rewrite (copy_fields_unaddressed _ _ Hall) in Hcopy. congruence.
Qed.

End Submit.

Lemma submitted_fields_are_written_witness :
  ∃ body rest,
    effects (handleLoginSubmit (instance_with credentials_exchange)
               mixed_form token_exchange).2 = Fetch body :: rest
    ∧ input_value body 2 = Ok (VStr "alice")
    ∧ input_value body 1 = Ok (VStr "secret")
    ∧ input_value body 0 = input_value credentials_exchange 0
    ∧ copy_fields credentials_exchange [("callback_1", "secret"); ("callback_002", "alice")]
      = (body, Ok tt).
Proof.
  destruct (submitted_fields_are_written (M := library_methods)
              (instance_with credentials_exchange) mixed_form token_exchange)
    as (body & rest & Hsent & Hvalues & _ & _ & Hcopy & _).
  - intros name v n Hin Hn.
    apply elem_of_cons in Hin as [[= -> ->]|Hin].
    { vm_compute in Hn. injection Hn as <-.
      do 4 eexists. split; [reflexivity |]. split; reflexivity. }
    apply elem_of_cons in Hin as [[= -> ->]|Hin].
    { vm_compute in Hn. discriminate. }
    apply elem_of_cons in Hin as [[= -> ->]|Hin].
    { vm_compute in Hn. discriminate. }
    apply elem_of_cons in Hin as [[= -> ->]|Hin].
    { vm_compute in Hn. discriminate. }
    apply elem_of_cons in Hin as [[= -> ->]|Hin].
    { vm_compute in Hn. discriminate. }
    apply elem_of_cons in Hin as [[= -> ->]|Hin].
    { vm_compute in Hn. discriminate. }
    apply elem_of_cons in Hin as [[= -> ->]|Hin].
    { vm_compute in Hn. injection Hn as <-.
      do 4 eexists. split; [reflexivity |]. split; reflexivity. }
    by apply not_elem_of_nil in Hin.
  - exists body, rest. split; [done |]. split; [apply (Hvalues 2) |].
    split; [apply (Hvalues 1) |]. split; [apply (Hvalues 0) |]. exact Hcopy.
Defined.

Section Echo.
Context `{M : Methods}.

(** C2. Let [received] be the response stored and rendered by
    [submitCallbacks], with or without a login button added to what is
    shown. The request of the next submit carries a callbacks sequence
    of the same length whose callback at each position is the received
    one of that position, with [type], [output] and every property but
    [input] as received, and [input] changed by assignments to
    [input[0].value] only; the rest of the exchange is as received.
    Nothing is appended, so the login button, which is rendered from a
    copy, is not among them. When the patterned fields address input
    slots there is such a request. *)
Theorem submission_echoes_sequence this received entries next items :
  get received "callbacks" = Ok (VArr items) →
  currentCallbacks (submitCallbacks this received).1 = received
  ∧ (∀ body,
       Fetch body ∈ effects (handleLoginSubmit (submitCallbacks this received).1
                               entries next).2 →
       ∃ items',
         get body "callbacks" = Ok (VArr items')
         ∧ length items' = length items
         ∧ Forall2 input_written items items'
         ∧ (∀ i callback callback' p,
              items !! i = Some callback → items' !! i = Some callback' →
              p ≠ "input" → get callback' p = get callback p)
         ∧ (∀ p, p ≠ "callbacks" → get body p = get received p))
  ∧ ((∀ name v n, (name, v) ∈ entries → match_callback name = Some n →
                  writable received n) →
     ∃ body rest,
       effects (handleLoginSubmit (submitCallbacks this received).1 entries next).2
       = Fetch body :: rest).
Proof.
  intros Hc. split; [done |]. split.
  - intros body Hin.
    destruct (copy_fields received entries) as [cur' copied] eqn:Hcopy.
    destruct (handleLoginSubmit_request (submitCallbacks this received).1
                entries next cur' copied Hcopy body Hin) as [-> ->].
    destruct (copy_fields_sequence _ _ _ _ _ Hc Hcopy) as (items' & Hc' & Hw & Hp).
    exists items'. split; [done |]. split; [by rewrite (Forall2_length _ _ _ Hw) |].
    split; [done |]. split; [| done].
    intros i callback callback' p Hi Hi' Hne.
    apply input_written_other; [| done].
    by eapply Forall2_lookup_lr.
  - intros Hw. destruct (copy_fields_writes received entries Hw) as (cur' & Hcopy & _).
    unfold handleLoginSubmit. simpl. rewrite Hcopy. simpl.
    unfold mbind, js_bind. simpl. eauto.
Qed.

End Echo.

Lemma submission_echoes_sequence_witness :
  ∃ body,
    Fetch body ∈ effects (handleLoginSubmit
                            (submitCallbacks (instance_with (VObj [])) credentials_exchange).1
                            submitted_form token_exchange).2
    ∧ ∃ items', get body "callbacks" = Ok (VArr items') ∧ length items' = 3.
Proof.
  destruct (submission_echoes_sequence (M := library_methods) (instance_with (VObj []))
              credentials_exchange submitted_form token_exchange _ eq_refl)
    as (_ & H & _).
  eexists. split; [vm_compute; apply list_elem_of_here |].
  match goal with
  | |- ∃ items', get ?b _ = _ ∧ _ =>
      destruct (H b) as (items' & Hc & Hl & _);
        [vm_compute; apply list_elem_of_here | exists items'; by split]
  end.
Defined.

(** * Further properties *)

(** ** findName *)

Lemma findName_step_skip name item :
  defined item = true → named name item = false →
  findName_step name (Ok (VBool false)) item = Ok (VBool false).
Proof.
  intros Hd Hn. unfold findName_step. simpl.
  destruct item as [| |b|n|s|l|props]; try discriminate; simpl; try done.
  simpl in Hn. by rewrite Hn.
Qed.

Lemma findName_skip name items :
  Forall (λ item, defined item = true ∧ named name item = false) items →
  foldl (findName_step name) (Ok (VBool false)) items = Ok (VBool false).
Proof.
  induction 1 as [|item rest [Hd Hn] _ IH]; [done |].
  simpl. by rewrite findName_step_skip.
Qed.

Lemma findName_step_error name items :
  foldl (findName_step name) TypeError items = TypeError.
Proof. induction items as [|item rest IH]; [done | apply IH]. Qed.

(** X1. [findName] gives the first item that is an object of the wanted
    name, and does not look at the items after it, whatever they are. It
    gives [false] when no item has the name, and throws when it meets
    [null] or [undefined] before a match, or is given no array. *)
Theorem findName_first_match name before :
  Forall (λ item, defined item = true ∧ named name item = false) before →
  (∀ item after,
     named name item = true →
     findName (VArr (before ++ item :: after)) name = Ok item)
  ∧ findName (VArr before) name = Ok (VBool false)
  ∧ (∀ item after,
       defined item = false →
       findName (VArr (before ++ item :: after)) name = TypeError)
  ∧ (∀ other, (∀ items, other ≠ VArr items) → findName other name = TypeError).
Proof.
  intros Hb. split; [| split; [| split]].
  - intros item after Hn. unfold findName. rewrite foldl_app, (findName_skip _ _ Hb).
    simpl. destruct item as [| | | | | |props]; try discriminate.
    rewrite findName_step_named by eauto. rewrite Hn.
    by apply findName_step_found.
  - by apply findName_skip.
  - intros item after Hd. unfold findName. rewrite foldl_app, (findName_skip _ _ Hb).
    simpl. replace (findName_step name (Ok (VBool false)) item) with (@TypeError value).
    + apply findName_step_error.
    + by destruct item.
  - intros other Hno. destruct other; try done. by destruct (Hno items).
Qed.

Lemma findName_first_match_witness :
  findName (VArr [pair "prompt" (VStr "Code:"); VNum 7;
                  pair "message" (VStr "first"); VNull; pair "message" (VStr "second")])
           "message"
  = Ok (pair "message" (VStr "first")).
Proof.
  apply (findName_first_match "message" [pair "prompt" (VStr "Code:"); VNum 7]).
  - repeat constructor.
  - reflexivity.
Defined.

(** ** The prompt *)

Lemma strip_colon_snoc s : strip_colon (s +:+ ":") = s.
Proof.
  induction s as [|c s IH]; [done |].
  change (String c s +:+ ":") with (String c (s +:+ ":")).
  simpl. destruct (s +:+ ":") eqn:E; [by destruct s |]. by rewrite IH.
Qed.

Lemma strip_colon_other s : (∀ t, s ≠ t +:+ ":") → strip_colon s = s.
Proof.
  induction s as [|c s IH]; intros Hs; [done |].
  destruct s as [|d r].
  - simpl. case_bool_decide as Hc; [| done]. subst c. by destruct (Hs EmptyString).
  - change (strip_colon (String c (String d r)))
      with (String c (strip_colon (String d r))).
    rewrite IH; [done |]. intros t Ht. apply (Hs (String c t)). simpl. by rewrite Ht.
Qed.

(** X2. The prompt handed to the render methods is the [prompt] output
    with one colon dropped from its very end, and only there: a prompt
    that does not end in a colon is handed on unchanged, and without a
    [prompt] output the prompt is the empty string. *)
Theorem prompt_drops_one_colon output text :
  entries output →
  (output_value "prompt" output = VStr (text +:+ ":") →
     prompt_of (VArr output) = Ok text)
  ∧ (output_value "prompt" output = VStr text → (∀ t, text ≠ t +:+ ":") →
     prompt_of (VArr output) = Ok text)
  ∧ (entry "prompt" output = None → prompt_of (VArr output) = Ok EmptyString).
Proof.
  intros He. rewrite (prompt_of_entries _ He). unfold prompt_text.
  split; [| split].
  - intros ->. by rewrite strip_colon_snoc.
  - intros -> Ht. by rewrite strip_colon_other.
  - intros Hno. by rewrite (output_value_missing _ _ Hno).
Qed.

Lemma prompt_drops_one_colon_witness :
  prompt_of (VArr [pair "prompt" (VStr "Device::")]) = Ok "Device:".
Proof.
  destruct (prompt_drops_one_colon [pair "prompt" (VStr "Device::")] "Device:" eq_refl)
    as (H & _).
  by apply H.
Defined.

(** ** Text fields and unknown types *)

(** X3. A callback whose type is none of the ten tags of the switch, or
    no string at all, is rendered by the instance's [renderNameCallback]
    with the callback, its index and its prompt. *)
Theorem unknown_type_renders_as_name `{M : Methods} callback index type output :
  get callback "type" = Ok type →
  get callback "output" = Ok (VArr output) →
  entries output →
  known_type type = false →
  renderCallback callback index
  = pure (renderNameCallback callback index (prompt_text output)).
Proof.
  intros Ht Ho He Hk. rewrite (renderCallback_switch _ _ _ _ Ht Ho He).
  unfold known_type in Hk. simpl in Hk.
  repeat (apply orb_false_iff in Hk as [? Hk]).
  simpl. by repeat match goal with H : strict_eq_str _ _ = false |- _ => rewrite H; clear H end.
Qed.

Lemma unknown_type_renders_as_name_witness :
  renderCallback device_example 2
  = Js (Ok (RNode (FirstElementOf (text_field "text" 2 EmptyString "Device:")))) [].
Proof.
  rewrite (unknown_type_renders_as_name (M := library_methods) device_example 2
             (VStr "DeviceProfileCallback") [pair "prompt" (VStr "Device::")]);
    reflexivity.
Defined.

(** X4. A NameCallback, PasswordCallback or TextInputCallback whose input
    sequence has a first slot is rendered as a text input, a password
    input or a text area: the field is named [callback_<index>], it holds
    the text of the current value of that slot, and the two inputs show
    the prompt as placeholder (the text area shows none). *)
Theorem text_fields_hold_input_value callback index output slot more v :
  get callback "output" = Ok (VArr output) →
  entries output →
  get callback "input" = Ok (VArr (slot :: more)) →
  get slot "value" = Ok v →
  (get callback "type" = Ok (VStr "NameCallback") →
     renderCallback callback index =
       Js (Ok (RNode (FirstElementOf
         (text_field "text" index (to_string v) (prompt_text output))))) [])
  ∧ (get callback "type" = Ok (VStr "PasswordCallback") →
     renderCallback callback index =
       Js (Ok (RNode (FirstElementOf
         (text_field "password" index (to_string v) (prompt_text output))))) [])
  ∧ (get callback "type" = Ok (VStr "TextInputCallback") →
     renderCallback callback index =
       Js (Ok (RNode (FirstElementOf (text_area index (to_string v))))) []).
Proof.
  intros Ho He Hi Hv.
  split; [| split]; intros Ht;
    rewrite (renderCallback_switch _ _ _ _ Ht Ho He); simpl;
    [unfold prototype.renderNameCallback
    |unfold prototype.renderPasswordCallback
    |unfold prototype.renderTextInputCallback];
    rewrite Hi; simpl; by rewrite Hv.
Qed.

Lemma text_fields_hold_input_value_witness :
  renderCallback password_example 1
  = Js (Ok (RNode (FirstElementOf (text_field "password" 1 "hunter2" "Password")))) [].
Proof.
  apply (text_fields_hold_input_value password_example 1
           [pair "prompt" (VStr "Password:")] (pair "IDToken2" (VStr "hunter2")) []
           (VStr "hunter2")); reflexivity.
Defined.

(** X5. The text fields read the first input slot unguarded: for a
    callback of type NameCallback, PasswordCallback, TextInputCallback or
    of no known type whose [input] is missing or an empty sequence,
    [renderCallback] throws, and does nothing before. *)
Theorem text_fields_need_an_input_slot callback index type output :
  get callback "type" = Ok type →
  get callback "output" = Ok (VArr output) →
  entries output →
  strict_eq_str type "NameCallback" || strict_eq_str type "PasswordCallback"
  || strict_eq_str type "TextInputCallback" || negb (known_type type) = true →
  get callback "input" = Ok VUndefined ∨ get callback "input" = Ok (VArr []) →
  renderCallback callback index = Js TypeError [].
Proof.
  intros Ht Ho He Hk Hi. rewrite (renderCallback_switch _ _ _ _ Ht Ho He).
  assert (prototype.renderNameCallback callback index (prompt_text output) = TypeError
          ∧ prototype.renderPasswordCallback callback index (prompt_text output) = TypeError
          ∧ prototype.renderTextInputCallback callback index (prompt_text output) = TypeError)
    as (Hn & Hp & Hx).
  { unfold prototype.renderNameCallback, prototype.renderPasswordCallback,
      prototype.renderTextInputCallback. by destruct Hi as [-> | ->]. }
  simpl. unfold renderUnknownCallback. simpl. rewrite Hn, Hp, Hx.
  unfold known_type in Hk. simpl in Hk.
  repeat (destruct (strict_eq_str type _); [done |]); try done.
  all: simpl in Hk; try discriminate.
Qed.

Lemma text_fields_need_an_input_slot_witness :
  renderCallback (descriptor "NameCallback" [pair "prompt" (VStr "User Name:")] []) 0
  = Js TypeError [].
Proof.
  apply (text_fields_need_an_input_slot _ 0 (VStr "NameCallback")
           [pair "prompt" (VStr "User Name:")]); try reflexivity.
  by right.
Defined.

(** ** Joining the rendered callbacks *)

Lemma flatten_from acc renderedCallbacks :
  foldl (λ result item,
           result ++ match item with
                     | RNode n => [Some n]
                     | RNodes ns => map Some ns
                     | RNothing => [None]
                     end) acc renderedCallbacks
  = acc ++ flat_map (λ item, match item with
                             | RNode n => [Some n]
                             | RNodes ns => map Some ns
                             | RNothing => [None]
                             end) renderedCallbacks.
Proof.
  revert acc. induction renderedCallbacks as [|item rest IH]; intros acc; simpl.
  - by rewrite app_nil_r.
  - by rewrite IH, app_assoc.
Qed.

Lemma append_children_nodes ns : append_children (map Some ns) = Ok (with_breaks ns).
Proof. induction ns as [|n ns IH]; [done |]. simpl. by rewrite IH. Qed.

Lemma append_children_undefined items : None ∈ items → append_children items = TypeError.
Proof.
  induction items as [|[n|] rest IH]; [by intros ?%elem_of_nil | | done].
  intros [?|Hin]%elem_of_cons; [done |]. simpl. by rewrite IH.
Qed.

Lemma joinRenderedCallbacks_undefined renderedCallbacks :
  RNothing ∈ renderedCallbacks → joinRenderedCallbacks renderedCallbacks = TypeError.
Proof.
  intros Hin. unfold joinRenderedCallbacks, flatten. rewrite flatten_from. simpl.
  apply append_children_undefined.
  apply list_elem_of_In, in_flat_map. exists RNothing.
  split; [by apply list_elem_of_In | by left].
Qed.

(** X6. [joinRenderedCallbacks] puts every rendered node into the form in
    the order of the callbacks, the nodes of an array result in their own
    order, each followed by a line break (the last one too). It throws as
    soon as one result is [undefined]. *)
Theorem join_appends_each_node renderedCallbacks :
  (Forall (λ r, r ≠ RNothing) renderedCallbacks →
     joinRenderedCallbacks renderedCallbacks
     = Ok (with_breaks (flat_map rendered_nodes renderedCallbacks)))
  ∧ (RNothing ∈ renderedCallbacks →
     joinRenderedCallbacks renderedCallbacks = TypeError).
Proof.
  split; [| apply joinRenderedCallbacks_undefined].
  unfold joinRenderedCallbacks, flatten. rewrite flatten_from. simpl.
  intros Hall. rewrite <- append_children_nodes. f_equal.
  induction Hall as [|r rest Hr _ IH]; [done |]. simpl.
  rewrite map_app, <- IH. by destruct r.
Qed.

Lemma join_appends_each_node_witness :
  joinRenderedCallbacks
    [RNode (ScriptElement "a"); RNodes []; RNodes [ScriptElement "b"; ScriptElement "c"]]
  = Ok [ScriptElement "a"; Br; ScriptElement "b"; Br; ScriptElement "c"; Br].
Proof.
  apply (join_appends_each_node
           [RNode (ScriptElement "a"); RNodes [];
            RNodes [ScriptElement "b"; ScriptElement "c"]]).
  repeat constructor; discriminate.
Defined.

(** ** Results and effects of a sequence of steps *)

Lemma result_bind {A B} (m : js A) (f : A → js B) :
  result (m ≫= f) = match result m with Ok a => result (f a) | TypeError => TypeError end.
Proof. unfold mbind, js_bind. by destruct (result m). Qed.

Lemma effects_bind {A B} (m : js A) (f : A → js B) :
  effects (m ≫= f)
  = match result m with
    | Ok a => effects m ++ effects (f a)
    | TypeError => effects m
    end.
Proof. unfold mbind, js_bind. by destruct (result m). Qed.

Lemma bind_error {A B} (m : js A) (f : A → js B) :
  result m = TypeError → (m ≫= f) = Js TypeError (effects m).
Proof. unfold mbind, js_bind. by intros ->. Qed.


(** ** What rendering one callback does *)

Section RenderEffects.
Context `{M : Methods}.

Lemma renderRedirect_outcome output :
  (renderRedirect output = Js TypeError [])
  ∨ ∃ action method fields,
      renderRedirect output = Js (Ok RNothing) [SubmitForm action method fields].
Proof.
  unfold renderRedirect.
  repeat match goal with
         | |- context [pure ?m ≫= _] =>
             let E := fresh in
             destruct m eqn:E; [rewrite (pure_bind _ _ _ eq_refl) | by left]
         end.
  right. eauto.
Qed.



End RenderEffects.

(** ** Redirects *)

Section Redirects.
Context `{M : Methods}.

Lemma renderCallback_redirect_result callback index :
  get callback "type" = Ok (VStr "RedirectCallback") →
  result (renderCallback callback index) = TypeError
  ∨ result (renderCallback callback index) = Ok RNothing.
Proof.
  intros Ht. unfold renderCallback.
  destruct (get callback "output") as [output|]; [| by left].
  rewrite (pure_bind _ _ _ eq_refl).
  destruct (prompt_of output) as [prompt|]; [| by left].
  rewrite (pure_bind _ _ _ eq_refl), (pure_bind _ _ _ Ht). simpl.
  destruct (renderRedirect_outcome output) as [-> | (a & m & f & ->)]; auto.
Qed.

Lemma map_js_from_undefined (f : value → nat → js rendered) c l i :
  c ∈ l →
  (∀ k, result (f c k) = TypeError ∨ result (f c k) = Ok RNothing) →
  result (map_js_from f l i) = TypeError
  ∨ ∃ rs, result (map_js_from f l i) = Ok rs ∧ RNothing ∈ rs.
Proof.
  intros Hin Hc. revert i. induction l as [|x rest IH]; intros i.
  - by apply elem_of_nil in Hin.
  - simpl. rewrite result_bind.
    apply elem_of_cons in Hin as [<- | Hin].
    + destruct (Hc i) as [-> | ->]; [by left |].
      rewrite result_bind. destruct (result (map_js_from f rest (S i))) as [ys|]; [| by left].
      right. exists (RNothing :: ys). split; [done | apply list_elem_of_here].
    + destruct (result (f x i)) as [y|]; [| by left].
      rewrite result_bind.
      destruct (IH Hin (S i)) as [-> | (ys & -> & Hys)]; [by left |].
      right. exists (y :: ys). split; [done | by apply list_elem_of_further].
Qed.

(** X8. An exchange with a RedirectCallback among its callbacks never
    yields a form: the redirect case returns nothing, which
    [joinRenderedCallbacks] cannot append, so [renderAllCallbacks] is
    rejected (if it was not before), nothing is bound to the page and the
    post-render handler is not called. *)
Theorem redirect_yields_no_form this items callback :
  get (currentCallbacks this) "callbacks" = Ok (VArr items) →
  callback ∈ items →
  get callback "type" = Ok (VStr "RedirectCallback") →
  result (renderAllCallbacks this) = TypeError
  ∧ continuation this = Js TypeError (effects (renderAllCallbacks this)).
Proof.
  intros Hc Hin Ht.
  assert (result (renderAllCallbacks this) = TypeError) as Hr.
  { unfold renderAllCallbacks. rewrite (pure_bind _ _ _ Hc).
    destruct (callbacks_to_render items) as [shown|] eqn:Es; [| done].
    rewrite (pure_bind _ _ _ eq_refl), result_bind.
    assert (callback ∈ shown) as Hshown.
    { unfold callbacks_to_render in Es.
      destruct (foldl has_button_step (Ok false) items) as [found|]; [| done].
      simpl in Es. injection Es as <-.
      destruct found; simpl; [done |]. apply elem_of_app. by left. }
    destruct (map_js_from_undefined renderCallback callback shown 0 Hshown)
      as [-> | (rs & -> & Hrs)]; [| done |].
    - intros k. by apply renderCallback_redirect_result.
    - simpl. by apply joinRenderedCallbacks_undefined. }
  split; [done |]. unfold continuation. by rewrite (bind_error _ _ Hr).
Qed.

(** X9. The hidden fields of the redirect form come from a [redirectData]
    output that is an array: one field per element, named by the
    element's index. A [redirectData] that is anything else truthy, such
    as an object of parameters, has no [forEach]: [renderCallback] throws
    and no form is submitted. *)
Theorem redirect_data_must_be_array callback index output :
  get callback "type" = Ok (VStr "RedirectCallback") →
  get callback "output" = Ok (VArr output) →
  entries output →
  (∀ data, output_value "redirectData" output = VArr data →
     renderCallback callback index =
       Js (Ok RNothing)
          [SubmitForm (to_string (output_value "redirectUrl" output))
                      (to_string (output_value "redirectMethod" output))
                      (imap (λ k v, (dec k, dom_string v)) data)])
  ∧ (redirectable (output_value "redirectData" output) = false →
     renderCallback callback index = Js TypeError []).
Proof.
  intros Ht Ho He. rewrite (renderCallback_switch _ _ _ _ Ht Ho He). simpl. split.
  - intros data Hd. rewrite renderRedirect_entries by (done || by rewrite Hd).
    by rewrite Hd.
  - intros Hd. unfold renderRedirect.
    pose proof (entries_objects _ He) as Hobj.
    rewrite !(pure_bind _ _ _ (findName_entry "redirectUrl" _ Hobj)).
    rewrite !(pure_bind _ _ _ (findName_entry "redirectMethod" _ Hobj)).
    rewrite !(pure_bind _ _ _ (findName_entry "redirectData" _ Hobj)).
    rewrite !(pure_bind _ _ _ (entry_value _ _)).
    rewrite entry_truthy, entry_value. simpl.
    destruct (entry "redirectData" output) eqn:E.
    + rewrite bool_decide_eq_true_2 by eauto.
      destruct (output_value "redirectData" output) as [| |[]|n|[]| |];
        simpl in Hd; try discriminate; try done.
      simpl. by destruct (n =? 0)%Z.
    + by rewrite (output_value_missing _ _ E) in Hd.
Qed.

End Redirects.

Lemma redirect_yields_no_form_witness :
  continuation (instance_with (VObj [("callbacks", VArr [name_example; redirect_list_example])]))
  = Js TypeError
       [SubmitForm "https://idp.example.com/sso" "POST" [("0", "PHNhbWw="); ("1", EmptyString)]].
Proof.
  destruct (redirect_yields_no_form (M := library_methods)
              (instance_with (VObj [("callbacks", VArr [name_example; redirect_list_example])]))
              [name_example; redirect_list_example] redirect_list_example eq_refl)
    as (_ & H).
  - apply list_elem_of_further, list_elem_of_here.
  - reflexivity.
  - rewrite H. reflexivity.
Defined.

Lemma redirect_data_must_be_array_witness :
  renderCallback redirect_example 0 = Js TypeError [].
Proof.
  apply (redirect_data_must_be_array redirect_example 0
           [pair "redirectUrl" (VStr "https://idp.example.com/sso");
            pair "redirectMethod" (VStr "POST");
            pair "redirectData" (VObj [("SAMLRequest", VStr "PHNhbWw=")])]);
    reflexivity.
Defined.

(** ** Faults of the submit loop *)

Lemma write_input_beyond cur items n x :
  get cur "callbacks" = Ok (VArr items) → length items ≤ n →
  write_input cur n x = TypeError.
Proof.
  intros Hc Hn. unfold write_input. rewrite Hc. simpl.
  by rewrite (lookup_ge_None_2 items n Hn).
Qed.

Lemma copy_fields_beyond cur entries items name v n :
  get cur "callbacks" = Ok (VArr items) →
  (name, v) ∈ entries → match_callback name = Some n → length items ≤ n →
  ∃ cur' items',
    copy_fields cur entries = (cur', TypeError)
    ∧ get cur' "callbacks" = Ok (VArr items')
    ∧ length items' = length items.
Proof.
  intros Hc Hin Hm Hn. revert cur items Hc Hn.
  induction entries as [|entry rest IH]; intros cur items Hc Hn.
  - by apply elem_of_nil in Hin.
  - simpl. destruct (match_callback entry.1) as [m|] eqn:Em.
    + destruct (write_input cur m (VStr entry.2)) as [cur1|] eqn:Ew; [| by eauto].
      apply elem_of_cons in Hin as [<- | Hin].
      * simpl in Em. rewrite Hm in Em. injection Em as <-.
        by rewrite (write_input_beyond _ _ _ _ Hc Hn) in Ew.
      * destruct (write_input_sequence _ _ _ _ _ Hc Ew) as (items1 & Hc1 & H1 & _).
        apply Forall2_length in H1.
        destruct (IH Hin cur1 items1 Hc1) as (cur' & items' & ? & ? & ?); [lia |].
        exists cur', items'. split; [done |]. split; [done | lia].
    + apply elem_of_cons in Hin as [<- | Hin]; [simpl in Em; congruence |].
      by apply IH.
Qed.

Lemma copy_fields_app cur before after :
  copy_fields cur (before ++ after)
  = match copy_fields cur before with
    | (cur1, Ok _) => copy_fields cur1 after
    | (cur1, TypeError) => (cur1, TypeError)
    end.
Proof.
  revert cur. induction before as [|entry rest IH]; intros cur; [done |].
  simpl. destruct (match_callback entry.1) as [n|]; [| apply IH].
  destruct (write_input cur n (VStr entry.2)); [apply IH | done].
Qed.

Section SubmitFaults.
Context `{M : Methods}.

(** X10. A form field whose name addresses an index at or beyond the
    number of callbacks makes [handleLoginSubmit] throw wherever the field
    stands among the form data: no request is sent, and the callbacks
    sequence is not extended. The name of the login button,
    [callback_<count>], is such a name. *)
Theorem field_beyond_callbacks_stops_submit this entries jsonResp items name v n :
  get (currentCallbacks this) "callbacks" = Ok (VArr items) →
  (name, v) ∈ entries →
  match_callback name = Some n →
  length items ≤ n →
  (handleLoginSubmit this entries jsonResp).2 = Js TypeError []
  ∧ (∃ items',
       get (currentCallbacks (handleLoginSubmit this entries jsonResp).1) "callbacks"
       = Ok (VArr items')
       ∧ length items' = length items)
  ∧ match_callback (field_name (length items)) = Some (length items).
Proof.
  intros Hc Hin Hm Hn.
  destruct (copy_fields_beyond _ _ _ _ _ _ Hc Hin Hm Hn) as (cur' & items' & Hcopy & Hc' & Hl).
  unfold handleLoginSubmit. rewrite Hcopy. simpl.
  split; [done |]. split; [eauto | apply match_callback_field_name].
Qed.

(** X11. The loop writes in place and does not undo: when the fields
    before a field that addresses no callback all address input slots,
    the stored exchange after the throw holds their values, the fields
    after the faulting one are not written, and no request is sent. *)
Theorem fault_keeps_earlier_writes this before name v n after jsonResp items :
  get (currentCallbacks this) "callbacks" = Ok (VArr items) →
  (∀ name' v' m, (name', v') ∈ before → match_callback name' = Some m →
                 writable (currentCallbacks this) m) →
  match_callback name = Some n →
  length items ≤ n →
  ∃ cur1,
    handleLoginSubmit this (before ++ (name, v) :: after) jsonResp
    = (with_currentCallbacks this cur1, Js TypeError [])
    ∧ ∀ m, input_value cur1 m =
           match last_field before m with
           | Some x => Ok (VStr x)
           | None => input_value (currentCallbacks this) m
           end.
Proof.
  intros Hc Hw Hm Hn.
  destruct (copy_fields_writes _ before Hw) as (cur1 & Hcopy & Hvalues).
  destruct (copy_fields_sequence _ _ _ _ _ Hc Hcopy) as (items1 & Hc1 & H1 & _).
  apply Forall2_length in H1.
  exists cur1. split; [| done].
  unfold handleLoginSubmit. rewrite copy_fields_app, Hcopy. simpl. rewrite Hm.
  rewrite (write_input_beyond _ items1) by (done || lia). done.
Qed.

End SubmitFaults.

Lemma field_beyond_callbacks_stops_submit_witness :
  (handleLoginSubmit (instance_with name_exchange)
     [("callback_0", "alice"); ("callback_1", "Login")] token_exchange).2
  = Js TypeError [].
Proof.
  apply (field_beyond_callbacks_stops_submit (M := library_methods)
           (instance_with name_exchange)
           [("callback_0", "alice"); ("callback_1", "Login")] token_exchange
           [name_example] "callback_1" "Login" 1).
  - reflexivity.
  - apply list_elem_of_further, list_elem_of_here.
  - reflexivity.
  - simpl. lia.
Defined.

Lemma fault_keeps_earlier_writes_witness :
  ∃ cur1,
    handleLoginSubmit (instance_with name_exchange)
      ([("callback_0", "alice")] ++ ("callback_7", "x") :: [("callback_0", "bob")])
      token_exchange
    = (with_currentCallbacks (instance_with name_exchange) cur1, Js TypeError [])
    ∧ input_value cur1 0 = Ok (VStr "alice").
Proof.
  destruct (fault_keeps_earlier_writes (M := library_methods)
              (instance_with name_exchange) [("callback_0", "alice")]
              "callback_7" "x" 7 [("callback_0", "bob")] token_exchange [name_example])
    as (cur1 & Hsubmit & Hvalues).
  - reflexivity.
  - intros name' v' m Hin Hm.
    apply elem_of_cons in Hin as [[= -> ->]|Hin]; [| by apply not_elem_of_nil in Hin].
    vm_compute in Hm. injection Hm as <-.
    do 4 eexists. split; [reflexivity |]. split; reflexivity.
  - reflexivity.
  - simpl. lia.
  - exists cur1. split; [exact Hsubmit | apply (Hvalues 0)].
Defined.

(** ** Requests *)

Lemma requests_silent {A} (m : js A) : silent m → requests (effects m) = [].
Proof.
  unfold silent, requests. induction 1 as [|e es He _ IH]; [done |].
  destruct e; try discriminate He; simpl; exact IH.
Qed.

Lemma requests_app es1 es2 : requests (es1 ++ es2) = requests es1 ++ requests es2.
Proof. unfold requests. apply omap_app. Qed.

Section Requests.
Context `{M : Methods}.

(** X12. [submitCallbacks] sends exactly one request, whose body is the
    exchange stored before the call, and [startLogin] sends the empty
    object whatever was stored. [handleLoginSubmit] sends one request when
    its loop completes, with the exchange as the loop left it as body, and
    none when the loop throws: it then ends with the error, having done
    nothing else. The library's own handling of the response (the calls
    of the handlers, rendering with methods that only build nodes, the
    timer, the redirect form) adds no request to these. *)
Theorem one_request_per_round this entries jsonResp :
  requests (effects (submitCallbacks this jsonResp).2) = [currentCallbacks this]
  ∧ requests (effects (startLogin this jsonResp).2) = [VObj []]
  ∧ match copy_fields (currentCallbacks this) entries with
    | (cur', Ok _) =>
        requests (effects (handleLoginSubmit this entries jsonResp).2) = [cur']
    | (_, TypeError) =>
        (handleLoginSubmit this entries jsonResp).2 = Js TypeError []
    end.
Proof.
  assert (∀ this', requests (effects (submitCallbacks this' jsonResp).2)
                   = [currentCallbacks this']) as Hone.
  { intros this'. unfold submitCallbacks. cbn [snd]. rewrite effects_bind.
    cbn [emit result effects]. rewrite requests_app.
    by rewrite (requests_silent _ (handleCallbackResponse_silent _)). }
  split; [apply Hone |]. split; [apply Hone |].
  unfold handleLoginSubmit.
  destruct (copy_fields (currentCallbacks this) entries) as [cur [[]|]]; [| done].
  apply Hone.
Qed.

(** X13. After a rendering that completes, the last branch of
    [handleCallbackResponse] binds the form when the mount point is in a
    document and then calls the post-render handler, when one was given,
    with the [header], [stage] and [template] of the exchange
    ([undefined] where the exchange has none); without a mount point
    nothing is bound and the handler is called all the same; nothing else
    is added to what rendering did. With a mount point that has no parent
    the replacement of the mount point throws: nothing is bound and the
    handler is not called. After a rendering that throws, neither
    happens. *)
Theorem continuation_binds_then_notifies this :
  (∀ form es,
     renderAllCallbacks this = Js (Ok form) es →
     ∃ props,
       currentCallbacks this = VObj props
       ∧ continuation this =
           let notified :=
             if postRenderHandler this
             then [CallPostRenderHandler
                     (default VUndefined (lookup_prop "header" props))
                     (default VUndefined (lookup_prop "stage" props))
                     (default VUndefined (lookup_prop "template" props))]
             else [] in
           match loginElement this with
           | NoElement => Js (Ok tt) (es ++ notified)
           | Attached => Js (Ok tt) (es ++ [BindForm form] ++ notified)
           | Detached => Js TypeError es
           end)
  ∧ (result (renderAllCallbacks this) = TypeError →
     continuation this = Js TypeError (effects (renderAllCallbacks this))).
Proof.
  split.
  - intros form es Hr.
    assert (∃ props, currentCallbacks this = VObj props) as [props Hp].
    { unfold renderAllCallbacks in Hr.
      destruct (currentCallbacks this) as [| | | |s|l|props]; try discriminate; eauto. }
    exists props. split; [done |].
    unfold continuation, renderHandler. rewrite Hr, Hp.
    unfold mbind, js_bind, emit, pure, mret, js_ret. simpl.
    destruct (loginElement this), (postRenderHandler this); simpl;
      by rewrite ?app_nil_r.
  - intros Hr. unfold continuation. by rewrite (bind_error _ _ Hr).
Qed.

End Requests.

Lemma one_request_per_round_witness :
  requests (effects (handleLoginSubmit (instance_with name_exchange)
                       [("callback_0", "alice")] token_exchange).2)
  = [VObj [("callbacks",
            VArr [VObj [("type", VStr "NameCallback");
                        ("input", VArr [VObj [("value", VStr "alice")]]);
                        ("output", VArr [pair "prompt" (VStr "User Name:")])]])]]
  ∧ (handleLoginSubmit (instance_with name_exchange)
       [("callback_0", "alice"); ("callback_1", "secret")] token_exchange).2
    = Js TypeError [].
Proof.
  split.
  - destruct (one_request_per_round (M := library_methods) (instance_with name_exchange)
                [("callback_0", "alice")] token_exchange) as (_ & _ & H).
    exact H.
  - destruct (one_request_per_round (M := library_methods) (instance_with name_exchange)
                [("callback_0", "alice"); ("callback_1", "secret")] token_exchange)
      as (_ & _ & H).
    exact H.
Defined.

Lemma continuation_binds_then_notifies_witness :
  continuation (EmbeddedLogin (VObj [("stage", VStr "DataStore1");
                                    ("callbacks", VArr [name_example])])
                  false false true Attached VUndefined)
  = Js (Ok tt)
       [BindForm [FirstElementOf (text_field "text" 0 EmptyString "User Name"); Br;
                  FirstElementOf (submit_control 1 0 "Login"); Br];
        CallPostRenderHandler VUndefined (VStr "DataStore1") VUndefined]
  ∧ continuation (EmbeddedLogin (VObj [("stage", VStr "DataStore1");
                                      ("callbacks", VArr [name_example])])
                    false false true NoElement VUndefined)
    = Js (Ok tt) [CallPostRenderHandler VUndefined (VStr "DataStore1") VUndefined]
  ∧ continuation (EmbeddedLogin (VObj [("stage", VStr "DataStore1");
                                      ("callbacks", VArr [polling_example])])
                    false false true Detached VUndefined)
    = Js TypeError [SetTimeout (VStr "8000")].
Proof.
  split; [| split].
  - destruct (continuation_binds_then_notifies (M := library_methods)
                (EmbeddedLogin (VObj [("stage", VStr "DataStore1");
                                      ("callbacks", VArr [name_example])])
                   false false true Attached VUndefined)) as (H & _).
    destruct (H [FirstElementOf (text_field "text" 0 EmptyString "User Name"); Br;
                 FirstElementOf (submit_control 1 0 "Login"); Br] [] eq_refl)
      as (props & Hp & ->).
    simpl in Hp. injection Hp as <-. reflexivity.
  - destruct (continuation_binds_then_notifies (M := library_methods)
                (EmbeddedLogin (VObj [("stage", VStr "DataStore1");
                                      ("callbacks", VArr [name_example])])
                   false false true NoElement VUndefined)) as (H & _).
    destruct (H [FirstElementOf (text_field "text" 0 EmptyString "User Name"); Br;
                 FirstElementOf (submit_control 1 0 "Login"); Br] [] eq_refl)
      as (props & Hp & ->).
    simpl in Hp. injection Hp as <-. reflexivity.
  - destruct (continuation_binds_then_notifies (M := library_methods)
                (EmbeddedLogin (VObj [("stage", VStr "DataStore1");
                                      ("callbacks", VArr [polling_example])])
                   false false true Detached VUndefined)) as (H & _).
    destruct (H [FirstElementOf (prototype.hidden_field "undefined" 0); Br]
                [SetTimeout (VStr "8000")] eq_refl)
      as (props & Hp & ->).
    reflexivity.
Defined.

(** ** The challenge widget *)

(** X14. The widget of a ReCaptchaCallback is keyed by the value of the
    first output of the callback, whatever that output is called; with an
    empty output sequence [renderCallback] throws. *)
Theorem recaptcha_keyed_by_first_output callback index output :
  get callback "type" = Ok (VStr "ReCaptchaCallback") →
  get callback "output" = Ok (VArr output) →
  entries output →
  (output = [] → renderCallback callback index = Js TypeError [])
  ∧ (∀ first rest v,
       output = first :: rest → get first "value" = Ok v →
       renderCallback callback index
       = Js (Ok (RNode (ReCaptchaContainer (to_string v) index))) []).
Proof.
  intros Ht Ho He. rewrite (renderCallback_switch _ _ _ _ Ht Ho He). simpl.
  unfold prototype.renderReCaptchaCallback. rewrite Ho. split.
  - by intros ->.
  - intros first rest v -> Hv. simpl. by rewrite Hv.
Qed.

Lemma recaptcha_keyed_by_first_output_witness :
  renderCallback recaptcha_example 0 = Js (Ok (RNode (ReCaptchaContainer "6LfW" 0))) [].
Proof.
  destruct (recaptcha_keyed_by_first_output recaptcha_example 0
              [pair "reCaptchaSiteKey" (VStr "6LfW"); pair "siteKey" (VStr "other")]
              eq_refl eq_refl eq_refl) as (_ & H).
  by apply (H (pair "reCaptchaSiteKey" (VStr "6LfW")) [pair "siteKey" (VStr "other")]
              (VStr "6LfW")).
Defined.

(** ** Callbacks without their list *)

Section Bare.
Context `{M : Methods}.

(** X16. A ConfirmationCallback without an [options] value and a
    ChoiceCallback without a [choices] value are rendered as no node at
    all. As a ConfirmationCallback also keeps the login button from being
    added, an exchange whose only callback is such a confirmation is
    rendered as an empty form, without any submit control. *)
Theorem callbacks_without_list_render_nothing callback index output :
  get callback "output" = Ok (VArr output) →
  entries output →
  (get callback "type" = Ok (VStr "ConfirmationCallback") →
     output_value "options" output = VUndefined →
     renderCallback callback index = Js (Ok (RNodes [])) []
     ∧ ∀ this, get (currentCallbacks this) "callbacks" = Ok (VArr [callback]) →
               renderAllCallbacks this = Js (Ok []) [])
  ∧ (get callback "type" = Ok (VStr "ChoiceCallback") →
     output_value "choices" output = VUndefined →
     renderCallback callback index = Js (Ok (RNodes [])) []).
Proof.
  intros Ho He.
  assert (∀ name, output_value name output = VUndefined →
                  (findName (VArr output) name ≫= λ e,
                     if truthy e then get e "value" else Ok VUndefined) = Ok VUndefined)
    as Hlook.
  { intros name Hv. rewrite (findName_entry name _ (entries_objects _ He)). simpl.
    unfold output_value in Hv. destruct (entry name output) as [item|] eqn:E; [| done].
    apply entry_named in E. destruct item; try discriminate E.
    simpl in *. by rewrite Hv. }
  assert (∀ i, get callback "type" = Ok (VStr "ConfirmationCallback") →
               output_value "options" output = VUndefined →
               renderCallback callback i = Js (Ok (RNodes [])) []) as Hconfirm.
  { intros i Ht Hv. rewrite (renderCallback_switch _ _ _ _ Ht Ho He). simpl.
    unfold renderConfirmation. specialize (Hlook "options" Hv).
    destruct (findName (VArr output) "options") as [e|]; [| done]. simpl in *.
    destruct (truthy e); [| done]. by rewrite Hlook. }
  split.
  - intros Ht Hv. split; [by apply Hconfirm |].
    intros this Hc. unfold renderAllCallbacks. rewrite (pure_bind _ _ _ Hc).
    assert (callbacks_to_render [callback] = Ok [callback]) as Hshown.
    { unfold callbacks_to_render, has_button_step. simpl. by rewrite Ht. }
    rewrite (pure_bind _ _ _ Hshown). simpl. by rewrite (Hconfirm 0 Ht Hv).
  - intros Ht Hv. rewrite (renderCallback_switch _ _ _ _ Ht Ho He). simpl.
    unfold renderChoice. specialize (Hlook "choices" Hv).
    destruct (findName (VArr output) "choices") as [e|]; [| done]. simpl in *.
    destruct (truthy e); [| done]. by rewrite Hlook.
Qed.

(** X17. An exchange is rendered unless a handler takes it. So when the
    exchange has no callbacks array and it is no success and no failure,
    or it is one and the handler for it was not given,
    [handleCallbackResponse] throws, having called no handler and bound
    nothing; a response such as an error with a code other than 401 ends
    this way. A response that is [null] ends this way at once. *)
Theorem unhandled_exchange_without_callbacks_throws this :
  (∀ props s f,
     currentCallbacks this = VObj props →
     (∀ items, default VUndefined (lookup_prop "callbacks" props) ≠ VArr items) →
     success this = Ok s → failure this = Ok f →
     s && successHandler this = false →
     f && failureHandler this = false →
     handleCallbackResponse this = Js TypeError [])
  ∧ (defined (currentCallbacks this) = false →
     handleCallbackResponse this = Js TypeError []).
Proof.
  split.
  - intros props s f Hp Hno Hs Hf Hsh Hfh. unfold handleCallbackResponse.
    rewrite (pure_bind _ _ _ Hs), Hsh, (pure_bind _ _ _ Hf), Hfh.
    unfold continuation, renderAllCallbacks. rewrite Hp. simpl.
    destruct (default VUndefined (lookup_prop "callbacks" props)) eqn:E; try done.
    by destruct (Hno items).
  - intros Hd. unfold handleCallbackResponse, success.
    by destruct (currentCallbacks this).
Qed.

End Bare.

Lemma callbacks_without_list_render_nothing_witness :
  renderAllCallbacks (instance_with (VObj [("callbacks", VArr [bare_confirmation_example])]))
  = Js (Ok []) [].
Proof.
  destruct (callbacks_without_list_render_nothing (M := library_methods)
              bare_confirmation_example 0 [pair "prompt" (VStr "Proceed?")] eq_refl eq_refl)
    as (H & _).
  destruct (H eq_refl eq_refl) as (_ & Hform).
  by apply Hform.
Defined.

Lemma unhandled_exchange_without_callbacks_throws_witness :
  handleCallbackResponse (instance_with server_error_exchange) = Js TypeError []
  ∧ handleCallbackResponse (EmbeddedLogin token_exchange false false false Attached VUndefined)
    = Js TypeError [].
Proof.
  split.
  - destruct (unhandled_exchange_without_callbacks_throws (M := library_methods)
                (instance_with server_error_exchange)) as (H & _).
    apply (H [("code", VNum 500); ("reason", VStr "Internal Server Error")] false false);
      try reflexivity. intros items. discriminate.
  - destruct (unhandled_exchange_without_callbacks_throws (M := library_methods)
                (EmbeddedLogin token_exchange false false false Attached VUndefined)) as (H & _).
    apply (H [("tokenId", VStr "AQIC5w"); ("successUrl", VStr "/console");
              ("code", VNum 401)] true true);
      try reflexivity. intros items. discriminate.
Defined.

(** ** The active choice *)

(** X18. The choices of a ChoiceCallback are handed to
    [renderChoiceCallback] with their indices, in order, and a choice is
    active exactly when its index is strictly equal to the [value]
    property of the callback's [input]: with the number k there, choice k
    and no other; with a string there, as after a submit, none. *)
Theorem choice_active_by_input_property `{M : Methods} callback index output opts input current :
  get callback "type" = Ok (VStr "ChoiceCallback") →
  get callback "output" = Ok (VArr output) →
  entries output →
  output_value "choices" output = VArr opts →
  get callback "input" = Ok input →
  get input "value" = Ok current →
  renderCallback callback index =
    pure (renderChoiceCallback callback index (prompt_text output)
            (imap (λ key option, Choice (strict_eq_num current (Z.of_nat key)) key option)
                  opts))
  ∧ (∀ k key, current = VNum k → strict_eq_num current (Z.of_nat key) = true ↔ Z.of_nat key = k)
  ∧ (∀ s key, current = VStr s → strict_eq_num current (Z.of_nat key) = false).
Proof.
  intros Ht Ho He Hc Hi Hv. split; [| split].
  - rewrite (renderCallback_switch _ _ _ _ Ht Ho He). simpl.
    unfold renderChoice.
    rewrite (findName_entry "choices" _ (entries_objects _ He)).
    destruct (entry "choices" output) as [item|] eqn:E;
      [| by rewrite (output_value_missing _ _ E) in Hc].
    pose proof (entry_named _ _ _ E) as Hn.
    unfold output_value in Hc. rewrite E in Hc.
    destruct item as [| | | | | |props]; try discriminate Hn.
    simpl. rewrite Hc. simpl.
    rewrite (map_from_total _
      (λ key option, Choice (strict_eq_num current (Z.of_nat key)) key option)).
    + done.
    + intros x k. rewrite Hi. simpl. by rewrite Hv.
  - intros k key ->. simpl. rewrite Z.eqb_eq. split; congruence.
  - by intros s key ->.
Qed.

Lemma choice_active_by_input_property_witness :
  renderCallback
    (VObj [("type", VStr "ChoiceCallback");
           ("output", VArr [pair "choices" (VArr [VStr "Email"; VStr "SMS"])]);
           ("input", VObj [("name", VStr "IDToken1"); ("value", VNum 1)])]) 0
  = pure (prototype.renderChoiceCallback
            (VObj [("type", VStr "ChoiceCallback");
                   ("output", VArr [pair "choices" (VArr [VStr "Email"; VStr "SMS"])]);
                   ("input", VObj [("name", VStr "IDToken1"); ("value", VNum 1)])])
            0 EmptyString
            [Choice false 0 (VStr "Email"); Choice true 1 (VStr "SMS")]).
Proof.
  destruct (choice_active_by_input_property (M := library_methods)
              (VObj [("type", VStr "ChoiceCallback");
                     ("output", VArr [pair "choices" (VArr [VStr "Email"; VStr "SMS"])]);
                     ("input", VObj [("name", VStr "IDToken1"); ("value", VNum 1)])]) 0
              [pair "choices" (VArr [VStr "Email"; VStr "SMS"])]
              [VStr "Email"; VStr "SMS"]
              (VObj [("name", VStr "IDToken1"); ("value", VNum 1)]) (VNum 1)
              eq_refl eq_refl eq_refl eq_refl eq_refl eq_refl) as (H & _).
  exact H.
Defined.

(** ** The string-rendering variant *)

Lemma index_js_switch callback index t output :
  get callback "type" = Ok t →
  get callback "output" = Ok (VArr output) →
  entries output →
  index_js.renderCallback callback index =
    let prompt := prompt_text output in
    if strict_eq_str t "NameCallback" then
      pure (index_js.renderNameCallback callback index (VStr prompt))
    else if strict_eq_str t "PasswordCallback" then
      pure (index_js.renderPasswordCallback callback index (VStr prompt))
    else if strict_eq_str t "TextInputCallback" then
      pure (index_js.renderTextInputCallback callback index (VStr prompt))
    else if strict_eq_str t "TextOutputCallback" then
      pure (index_js.renderTextOutput (VArr output) index)
    else if strict_eq_str t "ConfirmationCallback" then
      pure (index_js.renderConfirmation (VArr output) index)
    else if strict_eq_str t "ChoiceCallback" then
      pure (index_js.renderChoice callback (VArr output) index prompt)
    else if strict_eq_str t "HiddenValueCallback" then
      pure (html ← bundle.renderHiddenValueCallback callback index; Ok (VStr html))
    else if strict_eq_str t "RedirectCallback" then
      _ ← renderRedirect (VArr output); mret VUndefined
    else if strict_eq_str t "PollingWaitCallback" then
      index_js.renderPollingWait callback (VArr output) index
    else
      pure (index_js.renderUnknownCallback callback index).
Proof.
  intros Ht Ho He. unfold index_js.renderCallback.
  rewrite (pure_bind _ _ _ Ho).
  rewrite (pure_bind _ _ _ (prompt_of_entries _ He)).
  by rewrite (pure_bind _ _ _ Ht).
Qed.

(** X19. In [index.js] a TextOutputCallback whose [messageType] is the
    string "4" is rendered as a script tag around the message, unescaped;
    with any other [messageType] it is a message block whose class is the
    [messageType] as sent, not a severity name. *)
Theorem index_js_text_output_class_is_raw callback index output :
  get callback "type" = Ok (VStr "TextOutputCallback") →
  get callback "output" = Ok (VArr output) →
  entries output →
  index_js.renderCallback callback index =
    Js (Ok (VStr
      (if strict_eq_str (output_value "messageType" output) "4"
       then "<script " +:+ attr "type" "text/javascript" +:+ ">"
            +:+ to_string (output_value "message" output) +:+ "</script>"
       else message_block index (to_string (output_value "messageType" output))
              (to_string (output_value "message" output))))) [].
Proof.
  intros Ht Ho He. rewrite (index_js_switch _ _ _ _ Ht Ho He). simpl.
  unfold index_js.renderTextOutput.
  pose proof (findName_value "messageType" output He) as Hty.
  pose proof (findName_value "message" output He) as Hm.
  destruct (findName (VArr output) "messageType") as [type|]; [| done].
  destruct (findName (VArr output) "message") as [message|]; [| done].
  simpl in *. rewrite Hty. simpl.
  by destruct (strict_eq_str _ "4"); rewrite Hm.
Qed.

Lemma index_js_text_output_class_is_raw_witness :
  index_js.renderCallback warning_example 3
  = Js (Ok (VStr (message_block 3 "1" "Password expires soon"))) [].
Proof.
  apply (index_js_text_output_class_is_raw warning_example 3
           [pair "message" (VStr "Password expires soon"); pair "messageType" (VStr "1")]);
    reflexivity.
Defined.

(** X20. In [index.js] a callback of a type without a case, the
    ReCaptchaCallback among them, is rendered as a text input by
    [renderNameCallback] called without a prompt, so its placeholder is
    the text "undefined" whatever the [prompt] output says. *)
Theorem index_js_unknown_type_has_no_prompt callback index type output slot more v :
  get callback "type" = Ok type →
  get callback "output" = Ok (VArr output) →
  entries output →
  index_js.known_type type = false →
  get callback "input" = Ok (VArr (slot :: more)) →
  get slot "value" = Ok v →
  index_js.renderCallback callback index
  = Js (Ok (VStr (text_field "text" index (to_string v) "undefined"))) []
  ∧ index_js.known_type (VStr "ReCaptchaCallback") = false.
Proof.
  intros Ht Ho He Hk Hi Hv. split; [| done].
  rewrite (index_js_switch _ _ _ _ Ht Ho He).
  unfold index_js.known_type in Hk. simpl in Hk.
  repeat (apply orb_false_iff in Hk as [? Hk]).
  simpl. repeat match goal with H : strict_eq_str _ _ = false |- _ => rewrite H; clear H end.
  unfold index_js.renderUnknownCallback, index_js.renderNameCallback.
  rewrite Hi. simpl. by rewrite Hv.
Qed.

Lemma index_js_unknown_type_has_no_prompt_witness :
  index_js.renderCallback recaptcha_example 0
  = Js (Ok (VStr (text_field "text" 0 EmptyString "undefined"))) [].
Proof.
  apply (index_js_unknown_type_has_no_prompt recaptcha_example 0
           (VStr "ReCaptchaCallback")
           [pair "reCaptchaSiteKey" (VStr "6LfW"); pair "siteKey" (VStr "other")]
           (pair "IDToken1" (VStr EmptyString)) [] (VStr EmptyString)); reflexivity.
Defined.

(** X21. In [index.js] a PollingWaitCallback sets its timer with the
    [waitTime] output and is rendered as a heading that shows the
    [message] output; the callback needs no [input] for that. *)
Theorem index_js_polling_wait_shows_message callback index output :
  get callback "type" = Ok (VStr "PollingWaitCallback") →
  get callback "output" = Ok (VArr output) →
  entries output →
  index_js.renderCallback callback index =
    Js (Ok (VStr ("<h4>" +:+ to_string (output_value "message" output) +:+ "</h4>")))
       [SetTimeout (output_value "waitTime" output)].
Proof.
  intros Ht Ho He. rewrite (index_js_switch _ _ _ _ Ht Ho He). simpl.
  pose proof (entries_objects _ He) as Hobj. unfold index_js.renderPollingWait.
  rewrite !(pure_bind _ _ _ (findName_entry "waitTime" _ Hobj)).
  rewrite !(pure_bind _ _ _ (findName_entry "message" _ Hobj)).
  rewrite !(pure_bind _ _ _ (entry_value _ _)).
  done.
Qed.

Lemma index_js_polling_wait_shows_message_witness :
  index_js.renderCallback polling_without_input_example 0
  = Js (Ok (VStr "<h4>Waiting for response...</h4>")) [SetTimeout (VStr "8000")].
Proof.
  apply (index_js_polling_wait_shows_message polling_without_input_example 0
           [pair "waitTime" (VStr "8000"); pair "message" (VStr "Waiting for response...")]);
    reflexivity.
Defined.

Lemma confirmation_controls_as_nodes defaultOption index opts i j :
  map_from
    (λ option key,
       isDefault ← is_default defaultOption key;
       prototype.renderConfirmationCallbackOption option index key isDefault)
    opts i
  = (controls ← map_from
                  (λ option key,
                     isDefault ← is_default defaultOption key;
                     Ok (index_js.renderConfirmationCallbackOption option index key isDefault))
                  opts i;
     map_from (λ item (_ : nat),
                 match item with
                 | VStr html => Ok (FirstElementOf html)
                 | _ => TypeError
                 end) controls j).
Proof.
  revert i j. induction opts as [|option rest IH]; intros i j; [done |].
  simpl. destruct (is_default defaultOption i) as [d|]; [| done]. simpl.
  rewrite (IH (S i) (S j)).
  by destruct (map_from _ rest (S i)).
Qed.

(** X22. For callbacks of type NameCallback, PasswordCallback,
    TextInputCallback, ConfirmationCallback and HiddenValueCallback the
    current library and [index.js] render the same markup: the node, or
    nodes, of the current library are those of the text [index.js]
    returns, the two throw on the same callbacks, and neither has an
    effect. *)
Theorem variants_render_same_markup callback index type output :
  get callback "type" = Ok (VStr type) →
  get callback "output" = Ok (VArr output) →
  entries output →
  type ∈ ["NameCallback"; "PasswordCallback"; "TextInputCallback";
          "ConfirmationCallback"; "HiddenValueCallback"] →
  renderCallback callback index
  = pure (result (index_js.renderCallback callback index) ≫= as_nodes)
  ∧ effects (index_js.renderCallback callback index) = [].
Proof.
  intros Ht Ho He Hin.
  rewrite (renderCallback_switch _ _ _ _ Ht Ho He).
  rewrite (index_js_switch _ _ _ _ Ht Ho He).
  repeat (apply elem_of_cons in Hin as [-> | Hin]); [ | | | | | by apply elem_of_nil in Hin];
    simpl; (split; [f_equal | done]).
  - unfold prototype.renderNameCallback, index_js.renderNameCallback.
    destruct (get callback "input") as [input|]; [| done]. simpl.
    destruct (get_index input 0) as [slot|]; [| done]. simpl.
    by destruct (get slot "value").
  - unfold prototype.renderPasswordCallback, index_js.renderPasswordCallback.
    destruct (get callback "input") as [input|]; [| done]. simpl.
    destruct (get_index input 0) as [slot|]; [| done]. simpl.
    by destruct (get slot "value").
  - unfold prototype.renderTextInputCallback, index_js.renderTextInputCallback.
    destruct (get callback "input") as [input|]; [| done]. simpl.
    destruct (get_index input 0) as [slot|]; [| done]. simpl.
    by destruct (get slot "value").
  - unfold renderConfirmation, index_js.renderConfirmation.
    destruct (findName (VArr output) "options") as [options|]; [| done]. simpl.
    destruct (truthy options); [| done].
    destruct (get options "value") as [v|]; [| done]. simpl.
    destruct v as [| | | | |opts|]; try done.
    assert (∀ defaultOption,
              (map_from
                 (λ option key,
                    isDefault ← is_default defaultOption key;
                    prototype.renderConfirmationCallbackOption option index key isDefault)
                 opts 0 ≫= λ nodes, Ok (RNodes nodes))
              = ((map_from
                    (λ option key,
                       isDefault ← is_default defaultOption key;
                       Ok (index_js.renderConfirmationCallbackOption
                             option index key isDefault))
                    opts 0 ≫= λ controls, Ok (VArr controls)) ≫= as_nodes)) as Hsame.
    { intros defaultOption.
      rewrite (confirmation_controls_as_nodes defaultOption index opts 0 0).
      by destruct (map_from _ opts 0). }
    destruct (1 <? length opts); simpl.
    + destruct (foldl (findName_step "defaultOption") (Ok (VBool false)) output)
        as [defaultOption|]; [| done].
      apply Hsame.
    + exact (Hsame (VObj [("value", VNum 0)])).
  - unfold prototype.renderHiddenValueCallback, bundle.renderHiddenValueCallback.
    destruct (get callback "input") as [input|]; [| done]. simpl.
    by destruct (get input "value").
Qed.

Lemma variants_render_same_markup_witness :
  renderCallback confirmation_example 4
  = pure (result (index_js.renderCallback confirmation_example 4) ≫= as_nodes)
  ∧ result (index_js.renderCallback confirmation_example 4)
    = Ok (VArr [VStr (submit_control 4 0 "Yes"); VStr (submit_control 4 1 "No");
                VStr (submit_control 4 2 "Cancel")]).
Proof.
  split; [| reflexivity].
  apply (variants_render_same_markup confirmation_example 4 "ConfirmationCallback"
           [pair "prompt" (VStr EmptyString);
            pair "options" (VArr [VStr "Yes"; VStr "No"; VStr "Cancel"]);
            pair "defaultOption" (VNum 1)]); try reflexivity.
  do 3 apply list_elem_of_further. apply list_elem_of_here.
Defined.

(** ** The redirect in the string-rendering variant *)

(** X24. In [index.js] an exchange whose only callback is a
    RedirectCallback submits the redirect form and is rendered as empty
    text: the join takes the missing result as nothing instead of
    throwing, and no login button is added. *)
Theorem index_js_redirect_renders_empty_text this callback output :
  get (currentCallbacks this) "callbacks" = Ok (VArr [callback]) →
  get callback "type" = Ok (VStr "RedirectCallback") →
  get callback "output" = Ok (VArr output) →
  entries output →
  redirectable (output_value "redirectData" output) = true →
  index_js.renderLogin this =
    Js (Ok EmptyString)
       [SubmitForm (to_string (output_value "redirectUrl" output))
                   (to_string (output_value "redirectMethod" output))
                   (redirect_fields (output_value "redirectData" output))].
Proof.
  intros Hc Ht Ho He Hd. unfold index_js.renderLogin. rewrite (pure_bind _ _ _ Hc).
  assert (callbacks_to_render [callback] = Ok [callback]) as Hshown.
  { unfold callbacks_to_render, has_button_step. simpl. by rewrite Ht. }
  rewrite (pure_bind _ _ _ Hshown). cbn [map_js_from].
  rewrite (index_js_switch _ _ _ _ Ht Ho He). cbn -[renderRedirect mbind mret].
  by rewrite (renderRedirect_entries _ He Hd).
Qed.

Lemma index_js_redirect_renders_empty_text_witness :
  index_js.renderLogin (instance_with (VObj [("callbacks", VArr [redirect_list_example])]))
  = Js (Ok EmptyString)
       [SubmitForm "https://idp.example.com/sso" "POST" [("0", "PHNhbWw="); ("1", EmptyString)]].
Proof.
  apply (index_js_redirect_renders_empty_text
           (instance_with (VObj [("callbacks", VArr [redirect_list_example])]))
           redirect_list_example
           [pair "redirectUrl" (VStr "https://idp.example.com/sso");
            pair "redirectMethod" (VStr "POST");
            pair "redirectData" (VArr [VStr "PHNhbWw="; VNull])]); reflexivity.
Defined.
